(** * bg-data-scrapers: the fetch / dedupe / persist pipeline of [BaseScraper]

    A shallow embedding of [apps/scrapers/scrapers/base.py] and of the
    [ScrapedFile] table of [apps/scrapers/models.py], with the properties of
    the pipeline proved over it.

    Layout: the content hasher (hashlib's SHA-256 object), the external
    collaborators (HTTP session, clock, storage) as an explicit oracle, the
    scraper methods in state-passing style, then the theorems.

    Modelling choices. Python integers are [Z]; byte strings are lists of
    [byte]; the float [request_delay] is a rational, so that the backoff
    [request_delay * 2 ** attempt] is exact, and [time.sleep] refuses
    the lengths CPython refuses; clock readings are integers
    (microseconds). Each method takes the outcomes of the external calls
    it may make as an [env], and threads a [world]: the table, the
    scraper's statistics, and the trace of requests, sleeps and storage
    writes it performed. The ORM calls are taken to succeed; logging is
    left out. *)

From Stdlib Require Import ZArith QArith Ascii String Strings.Byte DecimalString.
From stdpp Require Import base list strings.

Local Open Scope Z_scope.

(* ===================================================================== *)
(** ** Content hasher: [hashlib.sha256]                                   *)
(* ===================================================================== *)

Module Sha256.

(** 32-bit words are integers reduced modulo 2^32. *)
Definition w32 (x : Z) : Z := x mod 2 ^ 32.
Definition add32 (x y : Z) : Z := w32 (x + y).
Definition not32 (x : Z) : Z := Z.lxor x (2 ^ 32 - 1).
Definition rotr (n x : Z) : Z :=
  Z.lor (Z.shiftr x n) (w32 (Z.shiftl x (32 - n))).

Definition Ch (x y z : Z) : Z := Z.lxor (Z.land x y) (Z.land (not32 x) z).
Definition Maj (x y z : Z) : Z :=
  Z.lxor (Z.lxor (Z.land x y) (Z.land x z)) (Z.land y z).
Definition Sigma0 (x : Z) : Z := Z.lxor (Z.lxor (rotr 2 x) (rotr 13 x)) (rotr 22 x).
Definition Sigma1 (x : Z) : Z := Z.lxor (Z.lxor (rotr 6 x) (rotr 11 x)) (rotr 25 x).
Definition sigma0 (x : Z) : Z := Z.lxor (Z.lxor (rotr 7 x) (rotr 18 x)) (Z.shiftr x 3).
Definition sigma1 (x : Z) : Z := Z.lxor (Z.lxor (rotr 17 x) (rotr 19 x)) (Z.shiftr x 10).

Definition K : list Z :=
  [ 1116352408; 1899447441; 3049323471; 3921009573; 961987163; 1508970993;
    2453635748; 2870763221; 3624381080; 310598401; 607225278; 1426881987;
    1925078388; 2162078206; 2614888103; 3248222580; 3835390401; 4022224774;
    264347078; 604807628; 770255983; 1249150122; 1555081692; 1996064986;
    2554220882; 2821834349; 2952996808; 3210313671; 3336571891; 3584528711;
    113926993; 338241895; 666307205; 773529912; 1294757372; 1396182291;
    1695183700; 1986661051; 2177026350; 2456956037; 2730485921; 2820302411;
    3259730800; 3345764771; 3516065817; 3600352804; 4094571909; 275423344;
    430227734; 506948616; 659060556; 883997877; 958139571; 1322822218;
    1537002063; 1747873779; 1955562222; 2024104815; 2227730452; 2361852424;
    2428436474; 2756734187; 3204031479; 3329325298 ].

Definition H0 : list Z :=
  [ 1779033703; 3144134277; 1013904242; 2773480762;
    1359893119; 2600822924; 528734635; 1541459225 ].

Definition byte_val (b : byte) : Z := Z.of_N (Byte.to_N b).

(** Big-endian words of a block, four bytes at a time. *)
Fixpoint be_words (bs : list byte) : list Z :=
  match bs with
  | b0 :: b1 :: b2 :: b3 :: rest =>
      (byte_val b0 * 2 ^ 24 + byte_val b1 * 2 ^ 16 + byte_val b2 * 2 ^ 8 + byte_val b3)
        :: be_words rest
  | _ => []
  end.

(** The message schedule, most recent word first: [ws] holds
    W(t-1), W(t-2), ..., W(0). *)
Fixpoint schedule (n : nat) (ws : list Z) : list Z :=
  match n with
  | O => ws
  | S n' =>
      let wt := add32 (add32 (sigma1 (nth 1 ws 0)) (nth 6 ws 0))
                      (add32 (sigma0 (nth 14 ws 0)) (nth 15 ws 0)) in
      schedule n' (wt :: ws)
  end.

Definition round (v : list Z) (kw : Z * Z) : list Z :=
  match v with
  | [a; b; c; d; e; f; g; h] =>
      let t1 := add32 (add32 (add32 h (Sigma1 e)) (add32 (Ch e f g) (fst kw))) (snd kw) in
      let t2 := add32 (Sigma0 a) (Maj a b c) in
      [add32 t1 t2; a; b; c; add32 d t1; e; f; g]
  | _ => v
  end.

(** One application of the compression function to a 64-byte block. *)
Definition compress (hs : list Z) (block : list byte) : list Z :=
  let W := rev (schedule 48 (rev (be_words block))) in
  let v := fold_left round (combine K W) hs in
  map (fun p => add32 (fst p) (snd p)) (combine hs v).

(** The hash object: chaining value, bytes not yet forming a whole
    block, and the number of bytes fed so far. *)
Record t := mk { chain : list Z; pending : list byte; total : N }.

(** [hashlib.sha256()] *)
Definition new : t := {| chain := H0; pending := []; total := 0%N |}.

(** Compress [n] whole blocks off the front of [bs]. *)
Fixpoint absorb (n : nat) (hs : list Z) (bs : list byte) : list Z * list byte :=
  match n with
  | O => (hs, bs)
  | S n' => absorb n' (compress hs (take 64 bs)) (drop 64 bs)
  end.

(** [h.update(data)] *)
Definition update (h : t) (data : list byte) : t :=
  let bs := pending h ++ data in
  let '(hs, rest) := absorb (length bs / 64)%nat (chain h) bs in
  {| chain := hs; pending := rest; total := (total h + N.of_nat (length data))%N |}.

(** [hashlib.sha256(data)] *)
Definition sha256 (data : list byte) : t := update new data.

Definition byte_of_Z (z : Z) : byte :=
  match Byte.of_N (Z.to_N (z mod 256)) with Some b => b | None => x00 end.

(** The 64-bit big-endian encoding of the message length in bits. *)
Definition length_bytes (nbytes : N) : list byte :=
  let bits := (Z.of_N nbytes * 8) mod 2 ^ 64 in
  map (fun i => byte_of_Z (Z.shiftr bits (8 * Z.of_nat (7 - i)))) (seq 0 8).

Definition padding (h : t) : list byte :=
  x80 :: replicate ((119 - length (pending h) mod 64) mod 64)%nat x00
      ++ length_bytes (total h).

(** The digest as eight words: the padded tail is compressed on a copy
    of the state. *)
Definition digest_words (h : t) : list Z :=
  let bs := pending h ++ padding h in
  fst (absorb (length bs / 64)%nat (chain h) bs).

Definition hex_digit (z : Z) : ascii :=
  nth (Z.to_nat z) (list_ascii_of_string "0123456789abcdef") "0"%char.

Definition hex_word (x : Z) : string :=
  string_of_list_ascii
    (map (fun i => hex_digit (Z.land (Z.shiftr x (4 * Z.of_nat (7 - i))) 15)) (seq 0 8)).

(** [h.hexdigest()] *)
Definition hexdigest (h : t) : string :=
  fold_right String.append EmptyString (map hex_word (digest_words h)).

End Sha256.

(* ===================================================================== *)
(** ** Python values and the external collaborators                       *)
(* ===================================================================== *)

(** Exceptions are split by what the [except] clauses of [base.py] tell
    apart: [requests.exceptions.RequestException] (connection errors,
    timeouts, [HTTPError], broken streams) and everything else.
    [exc_str] is [str(e)]. *)
Inductive exc_class := RequestException | OtherException.

Record exc := Exc { exc_kind : exc_class; exc_str : string }.

(** A call either returns a value or raises. *)
Inductive outcome (A : Type) :=
| Return (a : A)
| Raise (e : exc).
Arguments Return {A} a.
Arguments Raise {A} e.

(** What the code reads of a [requests.Response]: the status line, the
    decoded text, and the body as [iter_content] yields it, a sequence of
    chunks that may end in an exception raised mid-stream. *)
Record response := {
  status_code : Z;
  reason : string;
  response_url : string;
  text : string;
  iter_content : list (list byte);
  stream_error : option exc
}.

Definition decimal (z : Z) : string := NilZero.string_of_int (Z.to_int z).

(** [Response.raise_for_status()] of the requests library: statuses
    400..599 raise [HTTPError], a [RequestException]. *)
Definition raise_for_status (r : response) : outcome response :=
  if (400 <=? status_code r) && (status_code r <? 500) then
    Raise (Exc RequestException
             (decimal (status_code r) ++ " Client Error: " ++ reason r
                ++ " for url: " ++ response_url r))
  else if (500 <=? status_code r) && (status_code r <? 600) then
    Raise (Exc RequestException
             (decimal (status_code r) ++ " Server Error: " ++ reason r
                ++ " for url: " ++ response_url r))
  else Return r.

(** The outcomes of the external calls made during one method call, fixed
    in advance: the clock, the URL parser, the remote host and the storage
    backend. Clock readings are in microseconds; the readings taken within
    one call are identified. [session_get] is indexed by the loop variable
    [attempt] of [_make_request]. *)
Record env := {
  datetime_now : Z;
  time_time : Z;
  urlparse_path : string;
  session_head : outcome (option string);
  session_get : nat -> outcome response;
  storage_save : outcome string
}.

(** Observable actions on the outside world, in program order. *)
Inductive event :=
| EvHead (url : string) (timeout : Z)
| EvGet (url : string) (timeout : Z) (stream : bool)
| EvSleep (seconds : Q)
| EvSave (path : string) (content : list byte).

(* ===================================================================== *)
(** ** The file index: [ScrapedFile]                                      *)
(* ===================================================================== *)

Module ScrapedFile.
Record t := mk {
  institution : string;
  original_url : string;
  file_path : string;
  file_name : string;
  file_size : Z;
  mime_type : string;
  hash_value : string;
  date_created : Z;
  last_updated : Z
}.

(** The columns of [unique_together]. *)
Definition key (r : t) : string * string := (institution r, original_url r).
End ScrapedFile.

(** The table is the list of its rows in primary-key order: a row's
    position stands for its auto-incremented id. *)
Abbreviation table := (list ScrapedFile.t).

(** [ScrapedFile.objects.filter(institution=i, original_url=u).first()]:
    the matching row of lowest id, with its position. *)
Definition objects_filter_first (i u : string) (db : table) : option (nat * ScrapedFile.t) :=
  list_find (fun r => ScrapedFile.institution r = i /\ ScrapedFile.original_url r = u) db.

(** [instance.save()] on a row fetched from the table: an UPDATE of the
    row with that id. *)
Definition save_row (pk : nat) (r : ScrapedFile.t) (db : table) : table := <[pk := r]> db.

(** [ScrapedFile.objects.create(...)]: an INSERT. *)
Definition objects_create (r : ScrapedFile.t) (db : table) : table := db ++ [r].

(* ===================================================================== *)
(** ** The scraper                                                        *)
(* ===================================================================== *)

(** The attributes set once by [__init__] from the settings. *)
Record BaseScraper := {
  institution : string;
  request_timeout : Z;
  download_timeout : Z;
  request_delay : Q;
  max_retries : Z;
  SCRAPED_FILES_DIR : string
}.

Record error_entry := { err_url : string; err_error : string; err_time : Z }.

(** [self.stats]. The key ['duration'] is absent until [finalize]; it is
    kept as the exact difference of the two clock readings, of which the
    source takes [total_seconds()]. *)
Record RunStats := {
  start_time : Z;
  end_time : option Z;
  duration : option Z;
  files_scraped : Z;
  files_failed : Z;
  total_size : Z;
  errors : list error_entry
}.

(** What a method call can change: the table, the scraper's statistics,
    and the outside world through the actions it performs. *)
Record world := { db : table; stats : RunStats; trace : list event }.

Definition log (evs : list event) (w : world) : world :=
  {| db := db w; stats := stats w; trace := trace w ++ evs |}.

Definition set_db (d : table) (w : world) : world :=
  {| db := d; stats := stats w; trace := trace w |}.

Definition set_stats (s : RunStats) (w : world) : world :=
  {| db := db w; stats := s; trace := trace w |}.

(** The statistics as [__init__] creates them. *)
Definition init_stats (now : Z) : RunStats :=
  {| start_time := now; end_time := None; duration := None;
     files_scraped := 0; files_failed := 0; total_size := 0; errors := [] |}.

(** *** [_make_request] *)

Definition backoff (self : BaseScraper) (attempt : nat) : Q :=
  (request_delay self * inject_Z (2 ^ Z.of_nat attempt))%Q.

(** [timeout=self.download_timeout if stream else self.request_timeout] *)
Definition timeout_of (self : BaseScraper) (stream : bool) : Z :=
  if stream then download_timeout self else request_timeout self.

(** The two calls inside the [try]: [self.session.get(...)] and
    [response.raise_for_status()]. *)
Definition attempt_result (e : env) (attempt : nat) : outcome response :=
  match session_get e attempt with
  | Return r => raise_for_status r
  | Raise ex => Raise ex
  end.

(** [time.sleep(secs)] of CPython: the length is converted to a signed
    64-bit count of nanoseconds, which raises [OverflowError] when it
    does not fit; a negative length then raises [ValueError]. Neither is
    a [RequestException]. Float rounding is left out: lengths are
    rationals. *)
Definition SLEEP_MAX : Q := (2 ^ 63 - 1) # 1000000000.
Definition SLEEP_MIN : Q := (- 2 ^ 63) # 1000000000.

Definition time_sleep (secs : Q) : outcome unit :=
  if Qle_bool SLEEP_MIN secs && Qle_bool secs SLEEP_MAX then
    if Qle_bool 0 secs then Return tt
    else Raise (Exc OtherException "sleep length must be non-negative")
  else Raise (Exc OtherException "timestamp too large to convert to C _PyTime_t").

(** [self.request_delay * (2 ** attempt)], the product of a float (as
    the default [1.0] of the settings is) and an integer: the integer is
    converted to a float first, which raises [OverflowError] from
    [2 ** 1024] on. *)
Definition backoff_length (self : BaseScraper) (attempt : nat) : outcome Q :=
  if (1024 <=? attempt)%nat then
    Raise (Exc OtherException "int too large to convert to float")
  else Return (backoff self attempt).

(** [time.sleep(self.request_delay * (2 ** attempt))] *)
Definition backoff_sleep (self : BaseScraper) (attempt : nat) : outcome unit :=
  match backoff_length self attempt with
  | Return secs => time_sleep secs
  | Raise ex => Raise ex
  end.

(** The body of the [for attempt in range(self.max_retries)] loop, over the
    attempts still to run. Falling off the end of the loop returns [None].
    A sleep that raises is not performed: the exception leaves the loop,
    from the [try] block (it is no [RequestException]) as from the
    handler. *)
Fixpoint request_loop (self : BaseScraper) (e : env) (url : string) (stream : bool)
    (attempts : list nat) : outcome (option response) * list event :=
  match attempts with
  | [] => (Return None, [])
  | attempt :: rest =>
      let sent := EvGet url (timeout_of self stream) stream in
      match attempt_result e attempt with
      | Return r =>
          match time_sleep (request_delay self) with
          | Return _ => (Return (Some r), [sent; EvSleep (request_delay self)])
          | Raise ex => (Raise ex, [sent])
          end
      | Raise ex =>
          match exc_kind ex with
          | RequestException =>
              if Z.of_nat attempt =? max_retries self - 1 then (Raise ex, [sent])
              else
                match backoff_sleep self attempt with
                | Return _ =>
                    let '(res, evs) := request_loop self e url stream rest in
                    (res, sent :: EvSleep (backoff self attempt) :: evs)
                | Raise ex' => (Raise ex', [sent])
                end
          | OtherException => (Raise ex, [sent])
          end
      end
  end.

Definition _make_request (self : BaseScraper) (e : env) (url : string) (stream : bool)
    : outcome (option response) * list event :=
  request_loop self e url stream (seq 0 (Z.to_nat (max_retries self))).

(** Attribute access on the [None] that [_make_request] returns when the
    loop body never ran. *)
Definition attribute_error (attr : string) : exc :=
  Exc OtherException ("'NoneType' object has no attribute '" ++ attr ++ "'").

(** *** [fetch_page] *)

Definition fetch_page (self : BaseScraper) (e : env) (url : string) (w : world)
    : outcome (option string) * world :=
  let '(res, evs) := _make_request self e url false in
  let w1 := log evs w in
  match res with
  | Return (Some r) => (Return (Some (text r)), w1)
  | Return None => (Raise (attribute_error "text"), w1)
  | Raise ex =>
      match exc_kind ex with
      | RequestException =>
          let s := stats w1 in
          (Return None,
           set_stats {| start_time := start_time s; end_time := end_time s;
                        duration := duration s; files_scraped := files_scraped s;
                        files_failed := files_failed s; total_size := total_size s;
                        errors := errors s ++ [ {| err_url := url; err_error := exc_str ex;
                                                   err_time := datetime_now e |} ] |} w1)
      | OtherException => (Raise ex, w1)
      end
  end.

(** *** Paths and MIME types *)

Definition slash : ascii := "/"%char.
Definition dot : ascii := "."%char.

(** [str.rfind(c)]: the last index of [c], or -1. *)
Fixpoint rfind_from (c : ascii) (l : list ascii) (i : Z) (last : Z) : Z :=
  match l with
  | [] => last
  | x :: rest => rfind_from c rest (i + 1) (if Ascii.eqb x c then i else last)
  end.

Definition rfind (c : ascii) (l : list ascii) : Z := rfind_from c l 0 (-1).

(** [os.path.basename(p)]: what follows the last slash. *)
Definition basename (p : string) : string :=
  let l := list_ascii_of_string p in
  string_of_list_ascii (drop (Z.to_nat (rfind slash l + 1)) l).

(** [os.path.splitext(p)[1]]: from the last dot on, when that dot comes
    after the last slash and some character between the two is not a dot. *)
Definition splitext_ext (p : string) : string :=
  let l := list_ascii_of_string p in
  let sepIndex := rfind slash l in
  let dotIndex := rfind dot l in
  if sepIndex <? dotIndex then
    let leading := take (Z.to_nat (dotIndex - (sepIndex + 1))) (drop (Z.to_nat (sepIndex + 1)) l) in
    if forallb (fun x => Ascii.eqb x dot) leading then EmptyString
    else string_of_list_ascii (drop (Z.to_nat dotIndex) l)
  else EmptyString.

(** [str.lower()] on the ASCII letters, which is what [_get_mime_type]
    needs of it: the keys of [mime_types] are ASCII, the one character
    outside ASCII that lowers into ASCII is the Kelvin sign U+212A, to
    [k], and no key holds a [k]. Elsewhere [str.lower] is Unicode-aware
    and is not this function. *)
Definition lower_ascii (c : ascii) : ascii :=
  let n := nat_of_ascii c in
  if (65 <=? n)%nat && (n <=? 90)%nat then ascii_of_nat (n + 32) else c.

Definition lower (s : string) : string :=
  string_of_list_ascii (map lower_ascii (list_ascii_of_string s)).

(** [os.path.join(a, *p)] of posixpath. *)
Definition endswith_sep (path : string) : bool :=
  match last (list_ascii_of_string path) with
  | Some c => Ascii.eqb c slash
  | None => false
  end.

Definition join2 (path b : string) : string :=
  if String.prefix "/" b then b
  else if String.eqb path "" || endswith_sep path then path ++ b
  else path ++ "/" ++ b.

Definition path_join (a : string) (p : list string) : string := fold_left join2 p a.

Definition mime_types : list (string * string) :=
  [ (".pdf", "application/pdf");
    (".xls", "application/vnd.ms-excel");
    (".xlsx", "application/vnd.openxmlformats-officedocument.spreadsheetml.sheet");
    (".doc", "application/msword");
    (".docx", "application/vnd.openxmlformats-officedocument.wordprocessingml.document");
    (".csv", "text/csv");
    (".txt", "text/plain");
    (".html", "text/html");
    (".xml", "application/xml");
    (".json", "application/json");
    (".zip", "application/zip");
    (".rar", "application/x-rar-compressed") ]%string.

Fixpoint dict_get (k : string) (d : list (string * string)) (default : string) : string :=
  match d with
  | [] => default
  | (k', v) :: rest => if String.eqb k k' then v else dict_get k rest default
  end.

Definition _get_mime_type (file_name : string) : string :=
  let ext := lower (splitext_ext file_name) in
  dict_get ext mime_types "application/octet-stream".

(** *** Hashing *)

Definition _calculate_hash (content : list byte) : string :=
  Sha256.hexdigest (Sha256.sha256 content).

(** The loop [for byte_block in iter(lambda: f.read(4096), b"")] over an
    open file, whose state is the bytes not yet read. The loop ends at the
    first empty read; [fuel] bounds the number of reads. *)
Fixpoint read_blocks (fuel : nat) (f : list byte) (sha256_hash : Sha256.t) : option Sha256.t :=
  match fuel with
  | O => None
  | S fuel' =>
      match take 4096 f with
      | [] => Some sha256_hash
      | byte_block => read_blocks fuel' (drop 4096 f) (Sha256.update sha256_hash byte_block)
      end
  end.

(** [calculate_file_hash] of a file with the given content. Every read
    but the last consumes a byte, so one read more than there are bytes
    is always enough. *)
Definition calculate_file_hash (file_content : list byte) : option string :=
  match read_blocks (S (length file_content)) file_content Sha256.new with
  | Some h => Some (Sha256.hexdigest h)
  | None => None
  end.

(** The body of [for chunk in response.iter_content(chunk_size=8192)]:
    the locals [content], [hash_obj], [total_size]. *)
Definition consume_chunk (acc : list byte * Sha256.t * Z) (chunk : list byte)
    : list byte * Sha256.t * Z :=
  let '(content, hash_obj, total_size) := acc in
  match chunk with
  | [] => acc
  | _ => (content ++ chunk, Sha256.update hash_obj chunk, total_size + Z.of_nat (length chunk))
  end.

Definition consume (chunks : list (list byte)) : list byte * Sha256.t * Z :=
  fold_left consume_chunk chunks ([], Sha256.new, 0).

(** *** [download_file] *)

(** The [except Exception] block: count the failure, record it, return
    [None]. *)
Definition download_failed (url : string) (e : env) (ex : exc) (w : world)
    : outcome (option string) * world :=
  let s := stats w in
  (Return None,
   set_stats {| start_time := start_time s; end_time := end_time s;
                duration := duration s; files_scraped := files_scraped s;
                files_failed := files_failed s + 1; total_size := total_size s;
                errors := errors s ++ [ {| err_url := url; err_error := exc_str ex;
                                           err_time := datetime_now e |} ] |} w).

(** The statistics update after a commit. *)
Definition count_scraped (size : Z) (w : world) : world :=
  let s := stats w in
  set_stats {| start_time := start_time s; end_time := end_time s;
               duration := duration s; files_scraped := files_scraped s + 1;
               files_failed := files_failed s; total_size := total_size s + size;
               errors := errors s |} w.

(** The row [existing_file] after the five assignments and [save()]. *)
Definition updated_row (r : ScrapedFile.t) (file_path : string) (size : Z)
    (mime hash : string) (now : Z) : ScrapedFile.t :=
  {| ScrapedFile.institution := ScrapedFile.institution r;
     ScrapedFile.original_url := ScrapedFile.original_url r;
     ScrapedFile.file_path := file_path;
     ScrapedFile.file_name := ScrapedFile.file_name r;
     ScrapedFile.file_size := size;
     ScrapedFile.mime_type := mime;
     ScrapedFile.hash_value := hash;
     ScrapedFile.date_created := ScrapedFile.date_created r;
     ScrapedFile.last_updated := now |}.

(** The row that [objects.create] inserts. *)
Definition created_row (self : BaseScraper) (url file_path file_name : string) (size : Z)
    (mime hash : string) (now : Z) : ScrapedFile.t :=
  {| ScrapedFile.institution := institution self;
     ScrapedFile.original_url := url;
     ScrapedFile.file_path := file_path;
     ScrapedFile.file_name := file_name;
     ScrapedFile.file_size := size;
     ScrapedFile.mime_type := mime;
     ScrapedFile.hash_value := hash;
     ScrapedFile.date_created := now;
     ScrapedFile.last_updated := now |}.

(** Lines 137-141: the file name, from the URL when none is given. *)
Definition resolve_file_name (e : env) (file_name : option string) : string :=
  match file_name with
  | Some f => f
  | None =>
      let f := basename (urlparse_path e) in
      if String.eqb f "" then ("file_" ++ decimal (time_time e))%string else f
  end.

(** Lines 149-160: the ETag probe. [Some res] is a [return] or an
    exception leaving [download_file]; [None] falls through to the
    download. A header that is missing or empty is falsy. *)
Definition probe (self : BaseScraper) (e : env) (url : string)
    (existing_file : option (nat * ScrapedFile.t)) (overwrite : bool) (w : world)
    : option (outcome (option string)) * world :=
  match existing_file with
  | Some (_, existing) =>
      if negb overwrite then
        let w1 := log [EvHead url (request_timeout self)] w in
        match session_head e with
        | Return etag =>
            match etag with
            | Some tag =>
                if negb (String.eqb tag "") && String.eqb tag (ScrapedFile.hash_value existing)
                then (Some (Return (Some (ScrapedFile.file_path existing))), w1)
                else (None, w1)
            | None => (None, w1)
            end
        | Raise ex =>
            match exc_kind ex with
            | RequestException => (None, w1)
            | OtherException => (Some (Raise ex), w1)
            end
        end
      else (None, w)
  | None => (None, w)
  end.

(** Lines 194-224: save the bytes, then create or update the row, then
    count the file. *)
Definition store_and_commit (self : BaseScraper) (e : env) (url file_name storage_path : string)
    (existing_file : option (nat * ScrapedFile.t)) (overwrite : bool)
    (content : list byte) (total_size : Z) (hash_value : string) (w : world)
    : outcome (option string) * world :=
  let w1 := log [EvSave storage_path content] w in
  match storage_save e with
  | Raise ex => download_failed url e ex w1
  | Return file_path =>
      let mime_type := _get_mime_type file_name in
      let w2 :=
        match existing_file with
        | Some (pk, existing) =>
            if overwrite || negb (String.eqb (ScrapedFile.hash_value existing) hash_value)
            then set_db (save_row pk (updated_row existing file_path total_size mime_type
                                        hash_value (datetime_now e)) (db w1)) w1
            else w1
        | None =>
            set_db (objects_create (created_row self url file_path file_name total_size
                                      mime_type hash_value (datetime_now e)) (db w1)) w1
        end in
      (Return (Some file_path), count_scraped total_size w2)
  end.

(** Lines 162-234: the [try] block and its handler. *)
Definition download_body (self : BaseScraper) (e : env) (url file_name : string)
    (existing_file : option (nat * ScrapedFile.t)) (overwrite : bool) (w : world)
    : outcome (option string) * world :=
  let '(res, evs) := _make_request self e url true in
  let w1 := log evs w in
  match res with
  | Raise ex => download_failed url e ex w1
  | Return None => download_failed url e (attribute_error "iter_content") w1
  | Return (Some r) =>
      let storage_path := path_join (SCRAPED_FILES_DIR self) [institution self; file_name] in
      match stream_error r with
      | Some ex => download_failed url e ex w1
      | None =>
          let '(content, hash_obj, total_size) := consume (iter_content r) in
          let hash_value := Sha256.hexdigest hash_obj in
          match existing_file with
          | Some (_, existing) =>
              if String.eqb (ScrapedFile.hash_value existing) hash_value && negb overwrite
              then (Return (Some (ScrapedFile.file_path existing)), w1)
              else store_and_commit self e url file_name storage_path existing_file overwrite
                     content total_size hash_value w1
          | None =>
              store_and_commit self e url file_name storage_path existing_file overwrite
                content total_size hash_value w1
          end
      end
  end.

Definition download_file (self : BaseScraper) (e : env) (url : string)
    (file_name : option string) (overwrite : bool) (w : world)
    : outcome (option string) * world :=
  let file_name := resolve_file_name e file_name in
  let existing_file := objects_filter_first (institution self) url (db w) in
  match probe self e url existing_file overwrite w with
  | (Some res, w1) => (res, w1)
  | (None, w1) => download_body self e url file_name existing_file overwrite w1
  end.

(** *** [finalize] *)

(** Sets ['end_time'] and ['duration'] and returns [self.stats], the
    dictionary itself: the caller's result and the scraper's statistics
    are one object, read here off the world after the call. *)
Definition finalize (now : Z) (w : world) : world :=
  let s := stats w in
  set_stats {| start_time := start_time s; end_time := Some now;
               duration := Some (now - start_time s);
               files_scraped := files_scraped s; files_failed := files_failed s;
               total_size := total_size s; errors := errors s |} w.

(** *** Sequences of calls *)

(** One [download_file] call against the shared table, by some scraper
    whose statistics stand at [call_stats] when it makes the call. *)
Record download_call := {
  call_self : BaseScraper;
  call_env : env;
  call_url : string;
  call_file_name : option string;
  call_overwrite : bool;
  call_stats : RunStats
}.

Definition index_after (c : download_call) (d : table) : table :=
  db (snd (download_file (call_self c) (call_env c) (call_url c) (call_file_name c)
             (call_overwrite c) {| db := d; stats := call_stats c; trace := [] |})).

Definition index_after_all (cs : list download_call) (d : table) : table :=
  fold_left (fun d c => index_after c d) cs d.

(** The calls one scraper receives during a run, and what each returns. *)
Inductive op :=
| OpFetchPage (e : env) (url : string)
| OpDownloadFile (e : env) (url : string) (file_name : option string) (overwrite : bool)
| OpFinalize (now : Z).

Inductive result :=
| PageResult (r : outcome (option string))
| FileResult (r : outcome (option string))
| StatsResult (s : RunStats).

Definition step (self : BaseScraper) (o : op) (w : world) : result * world :=
  match o with
  | OpFetchPage e url =>
      let '(r, w') := fetch_page self e url w in (PageResult r, w')
  | OpDownloadFile e url file_name overwrite =>
      let '(r, w') := download_file self e url file_name overwrite w in (FileResult r, w')
  | OpFinalize now =>
      let w' := finalize now w in (StatsResult (stats w'), w')
  end.

Fixpoint run (self : BaseScraper) (ops : list op) (w : world) : list result * world :=
  match ops with
  | [] => ([], w)
  | o :: rest =>
      let '(r, w1) := step self o w in
      let '(rs, w2) := run self rest w1 in
      (r :: rs, w2)
  end.

Definition is_failed_page (r : result) : bool :=
  match r with PageResult (Return None) => true | _ => false end.

Definition is_failed_file (r : result) : bool :=
  match r with FileResult (Return None) => true | _ => false end.

Definition count (p : result -> bool) (rs : list result) : Z :=
  Z.of_nat (length (filter (fun r => p r = true) rs)).

(** *** Reading a trace *)

Definition is_get (ev : event) : bool :=
  match ev with EvGet _ _ _ => true | _ => false end.

Definition is_save (ev : event) : bool :=
  match ev with EvSave _ _ => true | _ => false end.

(** The number of [session.get] calls in a trace. *)
Definition attempts_made (evs : list event) : Z :=
  Z.of_nat (length (filter (fun ev => is_get ev = true) evs)).

(** The arguments of the [time.sleep] calls in a trace, in order. *)
Definition sleeps (evs : list event) : list Q :=
  flat_map (fun ev => match ev with EvSleep q => [q] | _ => [] end) evs.

(** The trace of [n] failed attempts: a request, then for each attempt
    before the last the backoff sleep and the next request. *)
Definition failing_trace (self : BaseScraper) (url : string) (stream : bool) (n : nat)
    : list event :=
  flat_map (fun attempt => [EvGet url (timeout_of self stream) stream;
                            EvSleep (backoff self attempt)]) (seq 0 (n - 1))
  ++ [EvGet url (timeout_of self stream) stream].

(** A length [time.sleep] accepts. *)
Definition sleepable (secs : Q) : Prop := (0 <= secs)%Q /\ (secs <= SLEEP_MAX)%Q.

(** The backoff sleeps after the attempts below [k] can all be performed:
    the power of two converts to a float and the length is one
    [time.sleep] accepts. As the lengths grow with the attempt this is a
    bound on [request_delay]: non-negative, and [request_delay * 2 ** (k-1)]
    at most [SLEEP_MAX], with [k] at most 1024. *)
Definition backoffs_sleepable (self : BaseScraper) (k : nat) : Prop :=
  forall attempt, (attempt < k)%nat ->
    (attempt < 1024)%nat /\ sleepable (backoff self attempt).

(** An attempt fails the way the [except] clause of [_make_request]
    catches: [session.get] or [raise_for_status] raises a
    [RequestException]. *)
Definition fails_transiently (e : env) (attempt : nat) : Prop :=
  exists ex, attempt_result e attempt = Raise ex /\ exc_kind ex = RequestException.

(** What the retry bound promises of one [_make_request] call: it raises
    the error of its last attempt, after exactly [max_retries] requests
    separated by the backoff sleeps [request_delay * 2 ** attempt]. *)
Definition retry_bound_outcome (self : BaseScraper) (e : env) (url : string) (stream : bool)
    : Prop :=
  exists ex evs,
    _make_request self e url stream = (Raise ex, evs)
    /\ attempts_made evs = max_retries self
    /\ sleeps evs = map (backoff self) (seq 0 (Z.to_nat (max_retries self) - 1))
    /\ evs = failing_trace self url stream (Z.to_nat (max_retries self))
    /\ attempt_result e (Z.to_nat (max_retries self) - 1) = Raise ex.



(** The probe did not settle the matter: the remote was unreachable,
    sent no validator, or sent one that differs from the stored digest. *)
Definition probe_fails_or_mismatches (e : env) (existing : ScrapedFile.t) : Prop :=
  (exists ex, session_head e = Raise ex /\ exc_kind ex = RequestException)
  \/ session_head e = Return None
  \/ (exists tag, session_head e = Return (Some tag)
                  /\ tag <> ScrapedFile.hash_value existing).

(** The bytes of a response body, all chunks put together. *)
Definition body (r : response) : list byte := concat (iter_content r).

(** The condition of line 190: the streamed content is what the table
    already records, and [overwrite] is off. *)
Definition content_unchanged (existing_file : option (nat * ScrapedFile.t))
    (overwrite : bool) (r : response) : bool :=
  match existing_file with
  | Some (_, existing) =>
      String.eqb (ScrapedFile.hash_value existing) (_calculate_hash (body r))
      && negb overwrite
  | None => false
  end.

(** The table after the commit of a downloaded body stored at
    [file_path]: the existing row rewritten in place, or a row added. *)
Definition committed (self : BaseScraper) (e : env) (url file_name : string)
    (existing_file : option (nat * ScrapedFile.t)) (r : response) (file_path : string)
    (d : table) : table :=
  let size := Z.of_nat (length (body r)) in
  let mime := _get_mime_type file_name in
  let hash := _calculate_hash (body r) in
  match existing_file with
  | Some (pk, existing) =>
      save_row pk (updated_row existing file_path size mime hash (datetime_now e)) d
  | None =>
      objects_create (created_row self url file_path file_name size mime hash
                        (datetime_now e)) d
  end.

(** The [storage.save] call of line 195. *)
Definition save_event (self : BaseScraper) (file_name : string) (r : response) : event :=
  EvSave (path_join (SCRAPED_FILES_DIR self) [institution self; file_name]) (body r).

(** A full body download: the call [self._make_request(url, stream=True)]
    of [download_file] (line 163), its only request for the body, hands
    back the response [r], and the loop over [r.iter_content] reads the
    body to its end. *)
Definition full_body_download (self : BaseScraper) (e : env) (url : string)
    (r : response) : Prop :=
  fst (_make_request self e url true) = Return (Some r) /\ stream_error r = None.

(** The call [c], made on the table [d], commits the response [r] stored
    at [file_path]: the probe does not end the call, the body transport
    returns [r], whose body streams to its end and is not the content
    the table records (or [overwrite] is set), and [storage.save]
    returns [file_path]. *)
Definition commits (c : download_call) (d : table) (r : response) (file_path : string)
    : Prop :=
  let self := call_self c in
  let e := call_env c in
  let existing_file := objects_filter_first (institution self) (call_url c) d in
  fst (probe self e (call_url c) existing_file (call_overwrite c)
         {| db := d; stats := call_stats c; trace := [] |}) = None
  /\ fst (_make_request self e (call_url c) true) = Return (Some r)
  /\ stream_error r = None
  /\ content_unchanged existing_file (call_overwrite c) r = false
  /\ storage_save e = Return file_path.

(** The ways the [try] block of [download_file] ends in its handler, with
    the exception handled and the actions performed up to it: the
    transport gave up, the loop ran no attempt, the stream broke, or the
    storage backend refused the bytes. *)
Inductive download_error (self : BaseScraper) (e : env) (url file_name : string)
    (existing_file : option (nat * ScrapedFile.t)) (overwrite : bool)
    : exc -> list event -> Prop :=
| RetriesExhausted ex evs :
    _make_request self e url true = (Raise ex, evs) ->
    download_error self e url file_name existing_file overwrite ex evs
| NoAttempt evs :
    _make_request self e url true = (Return None, evs) ->
    download_error self e url file_name existing_file overwrite
      (attribute_error "iter_content") evs
| BrokenStream r ex evs :
    _make_request self e url true = (Return (Some r), evs) ->
    stream_error r = Some ex ->
    download_error self e url file_name existing_file overwrite ex evs
| StorageError r ex evs :
    _make_request self e url true = (Return (Some r), evs) ->
    stream_error r = None ->
    content_unchanged existing_file overwrite r = false ->
    storage_save e = Raise ex ->
    download_error self e url file_name existing_file overwrite ex
      (evs ++ [save_event self file_name r]).

(** What a second [finalize] would have to respect if it resolved to
    the first: the end time and the duration the first call recorded. *)
Definition finalize_is_stable (t1 t2 : Z) (w : world) : Prop :=
  let first := stats (finalize t1 w) in
  let second := stats (finalize t2 (finalize t1 w)) in
  end_time second = end_time first /\ duration second = duration first.

(** The three ways the [try] block can end. *)
Inductive body_outcome (self : BaseScraper) (e : env) (url file_name : string)
  (existing_file : option (nat * ScrapedFile.t)) (overwrite : bool) (w : world)
  : outcome (option string) * world -> Prop :=
| BodyFailed ex evs :
    download_error self e url file_name existing_file overwrite ex evs ->
    body_outcome self e url file_name existing_file overwrite w (download_failed url e ex (log evs w))
| BodyUnchanged r evs pk existing :
    existing_file = Some (pk, existing) ->
    _make_request self e url true = (Return (Some r), evs) ->
    stream_error r = None ->
    content_unchanged existing_file overwrite r = true ->
    body_outcome self e url file_name existing_file overwrite w (Return (Some (ScrapedFile.file_path existing)), log evs w)
| BodyCommitted r evs file_path :
    _make_request self e url true = (Return (Some r), evs) ->
    stream_error r = None ->
    content_unchanged existing_file overwrite r = false ->
    storage_save e = Return file_path ->
    body_outcome self e url file_name existing_file overwrite w
      (Return (Some file_path),
       count_scraped (Z.of_nat (length (body r)))
         (set_db (committed self e url file_name existing_file r file_path (db w))
            (log (evs ++ [save_event self file_name r]) w))).

(** *** Sample scrapers and remote hosts *)

(** A scraper with the defaults of [settings.py]. *)
Definition nsi : BaseScraper :=
  {| institution := "NSI"; request_timeout := 30; download_timeout := 300;
     request_delay := 1; max_retries := 3; SCRAPED_FILES_DIR := "/srv/scraped_files" |}.

(** The same with [MAX_RETRIES = 0]. *)
Definition nsi_no_retries : BaseScraper :=
  {| institution := "NSI"; request_timeout := 30; download_timeout := 300;
     request_delay := 1; max_retries := 0; SCRAPED_FILES_DIR := "/srv/scraped_files" |}.

(** The same with [REQUEST_DELAY = -1.0]. *)
Definition nsi_negative_delay : BaseScraper :=
  {| institution := "NSI"; request_timeout := 30; download_timeout := 300;
     request_delay := -1; max_retries := 3; SCRAPED_FILES_DIR := "/srv/scraped_files" |}.

Definition connection_error : exc := Exc RequestException "Connection refused".

Definition sample_url : string := "https://www.nsi.bg/data/report.xlsx".

(** A host that refuses every connection. *)
Definition host_down : env :=
  {| datetime_now := 1700000000000000; time_time := 1700000000;
     urlparse_path := "/data/report.xlsx";
     session_head := Raise connection_error;
     session_get := fun _ => Raise connection_error;
     storage_save := Return "/srv/scraped_files/NSI/report.xlsx" |}.

Definition not_found : response :=
  {| status_code := 404; reason := "Not Found"; response_url := sample_url;
     text := ""; iter_content := []; stream_error := None |}.

(** A host that answers 404 to every request. *)
Definition host_404 : env :=
  {| datetime_now := 1700000000000000; time_time := 1700000000;
     urlparse_path := "/data/report.xlsx";
     session_head := Return None;
     session_get := fun _ => Return not_found;
     storage_save := Return "/srv/scraped_files/NSI/report.xlsx" |}.

Definition bytes_of_string (s : string) : list byte := list_byte_of_string s.

Definition abc_digest : string :=
  "ba7816bf8f01cfea414140de5dae2223b00361a396177a9cb410ff61f20015ad".

(** The row of a file downloaded earlier, whose content was [abc]. *)
Definition stored_row : ScrapedFile.t :=
  {| ScrapedFile.institution := "NSI";
     ScrapedFile.original_url := sample_url;
     ScrapedFile.file_path := "/srv/scraped_files/NSI/report.xlsx";
     ScrapedFile.file_name := "report.xlsx";
     ScrapedFile.file_size := 3;
     ScrapedFile.mime_type :=
       "application/vnd.openxmlformats-officedocument.spreadsheetml.sheet";
     ScrapedFile.hash_value := abc_digest;
     ScrapedFile.date_created := 1690000000000000;
     ScrapedFile.last_updated := 1690000000000000 |}.

(** A scraper that has just started, on an empty table and on a table
    holding [stored_row]. *)
Definition fresh_world : world :=
  {| db := []; stats := init_stats 1699999999000000; trace := [] |}.

Definition indexed_world : world :=
  {| db := [stored_row]; stats := init_stats 1699999999000000; trace := [] |}.

(** A response that streams [abc] in two chunks. *)
Definition ok_abc : response :=
  {| status_code := 200; reason := "OK"; response_url := sample_url;
     text := "abc"; iter_content := [bytes_of_string "ab"; bytes_of_string "c"];
     stream_error := None |}.

(** A host whose ETag is the stored digest. *)
Definition host_etag_match : env :=
  {| datetime_now := 1700000000000000; time_time := 1700000000;
     urlparse_path := "/data/report.xlsx";
     session_head := Return (Some abc_digest);
     session_get := fun _ => Return ok_abc;
     storage_save := Return "/srv/scraped_files/NSI/report.xlsx" |}.

(** A host that sends no ETag and serves the content already stored. *)
Definition host_same_content : env :=
  {| datetime_now := 1700000000000000; time_time := 1700000000;
     urlparse_path := "/data/report.xlsx";
     session_head := Return None;
     session_get := fun _ => Return ok_abc;
     storage_save := Return "/srv/scraped_files/NSI/report.xlsx" |}.

Definition disk_full : exc := Exc OtherException "[Errno 28] No space left on device".

(** The same host while the storage backend refuses writes. *)
Definition storage_full : env :=
  {| datetime_now := 1700000000000000; time_time := 1700000000;
     urlparse_path := "/data/report.xlsx";
     session_head := Return None;
     session_get := fun _ => Return ok_abc;
     storage_save := Raise disk_full |}.

(** Two calls for the same URL on an empty table: the first inserts, the
    second, with [overwrite], rewrites the row it finds. *)
Definition first_download : download_call :=
  {| call_self := nsi; call_env := host_same_content; call_url := sample_url;
     call_file_name := None; call_overwrite := false;
     call_stats := init_stats 1699999999000000 |}.

Definition forced_download : download_call :=
  {| call_self := nsi; call_env := host_same_content; call_url := sample_url;
     call_file_name := None; call_overwrite := true;
     call_stats := init_stats 1699999999000000 |}.

(** *** More sample hosts *)

(** A host that refuses the first two connections and then serves [abc]. *)
Definition host_flaky : env :=
  {| datetime_now := 1700000000000000; time_time := 1700000000;
     urlparse_path := "/data/report.xlsx";
     session_head := Return None;
     session_get := fun attempt => if (attempt <? 2)%nat then Raise connection_error
                                   else Return ok_abc;
     storage_save := Return "/srv/scraped_files/NSI/report.xlsx" |}.

Definition decode_error : exc :=
  Exc OtherException "'utf-8' codec can't decode byte 0xff in position 0".

(** A host whose answer makes the HTTP library raise something that is
    not a [RequestException]. *)
Definition host_crash : env :=
  {| datetime_now := 1700000000000000; time_time := 1700000000;
     urlparse_path := "/data/report.xlsx";
     session_head := Return None;
     session_get := fun _ => Raise decode_error;
     storage_save := Return "/srv/scraped_files/NSI/report.xlsx" |}.

(** A host that refuses the first connection and whose second answer
    makes the HTTP library raise such an exception. *)
Definition host_late_crash : env :=
  {| datetime_now := 1700000000000000; time_time := 1700000000;
     urlparse_path := "/data/report.xlsx";
     session_head := Return None;
     session_get := fun attempt => if (attempt <? 1)%nat then Raise connection_error
                                   else Raise decode_error;
     storage_save := Return "/srv/scraped_files/NSI/report.xlsx" |}.

(** The events of the attempts in [attempts] when each of them fails
    and is retried. *)
Definition retried (self : BaseScraper) (url : string) (stream : bool)
    (attempts : list nat) : list event :=
  flat_map (fun attempt => [EvGet url (timeout_of self stream) stream;
                            EvSleep (backoff self attempt)]) attempts.

(** The number of [download_file] calls among the calls of a run. *)
Definition is_download (o : op) : bool :=
  match o with OpDownloadFile _ _ _ _ => true | _ => false end.

Definition downloads (ops : list op) : Z :=
  Z.of_nat (length (filter (fun o => is_download o = true) ops)).

Definition is_finalize (o : op) : bool :=
  match o with OpFinalize _ => true | _ => false end.

(** What one call may do to the statistics and the table: the clock
    fields are touched by [finalize] alone, the counters never go down,
    a download counts at most once and as one thing only, the recorded
    errors are only added to, and the table never loses a row. *)
Record evolves (downloaded : Z) (w w' : world) : Prop := {
  ev_start : start_time (stats w') = start_time (stats w);
  ev_scraped : files_scraped (stats w) <= files_scraped (stats w');
  ev_failed : files_failed (stats w) <= files_failed (stats w');
  ev_size : total_size (stats w) <= total_size (stats w');
  ev_counted : (files_scraped (stats w') - files_scraped (stats w))
               + (files_failed (stats w') - files_failed (stats w)) <= downloaded;
  ev_errors : errors (stats w) `prefix_of` errors (stats w');
  ev_rows : (length (db w) <= length (db w'))%nat
}.

(** *** The shape of a digest *)

Definition is_hex (c : ascii) : bool :=
  existsb (Ascii.eqb c) (list_ascii_of_string "0123456789abcdef").

Fixpoint all_hex (s : string) : bool :=
  match s with
  | EmptyString => true
  | String c rest => is_hex c && all_hex rest
  end.

(** What the column [hash_value = CharField(max_length=64)] is meant to
    hold: 64 lower-case hexadecimal digits. *)
Definition is_digest (s : string) : Prop :=
  String.length s = 64%nat /\ all_hex s = true.



(** A host whose answer to the HEAD probe makes the HTTP library raise
    something that is not a [RequestException]. *)
Definition host_head_crash : env :=
  {| datetime_now := 1700000000000000; time_time := 1700000000;
     urlparse_path := "/data/report.xlsx";
     session_head := Raise decode_error;
     session_get := fun _ => Return ok_abc;
     storage_save := Return "/srv/scraped_files/NSI/report.xlsx" |}.

(** *** [NSIScraper.extract_links] *)

(** What [extract_links] reads of an [<a href=...>] tag found by
    [soup.find_all('a', href=True)]: the attribute and the stripped
    text. *)
Record anchor := { href : string; get_text : string }.

(** The dictionaries it returns. *)
Record link := { link_url : string; link_title : string; link_extension : string }.

Definition default_file_extensions : list string :=
  [".xls"; ".xlsx"; ".csv"; ".pdf"; ".doc"; ".docx"; ".zip"]%string.

(** [s.endswith(suffix)] *)
Definition endswith (s suffix : string) : bool :=
  bool_decide (list_ascii_of_string suffix `suffix_of` list_ascii_of_string s).

(** [urljoin] of the standard library is taken as given, and so is
    [str.lower], which is Unicode-aware: a string stands for its UTF-8
    encoding, on which [endswith], [basename] and [splitext] do what
    they do on the characters. *)
Definition extract_links (urljoin : string -> string -> string)
    (str_lower : string -> string) (base_url : string)
    (anchors : list anchor) (file_extensions : option (list string)) : list link :=
  let file_extensions := match file_extensions with
                         | None => default_file_extensions
                         | Some exts => exts
                         end in
  flat_map (fun a_tag =>
              let url := urljoin base_url (href a_tag) in
              if existsb (fun ext => endswith (str_lower url) ext) file_extensions then
                [ {| link_url := url;
                     link_title := if String.eqb (get_text a_tag) "" then basename url
                                   else get_text a_tag;
                     link_extension := str_lower (splitext_ext url) |} ]
              else [])
           anchors.

(** What the titles need of [str.lower]: the empty string stays empty,
    and a string that ends in a slash still does when lowered. Both hold
    of Python's, which maps the characters one by one and leaves the
    slash alone. *)
Definition lower_keeps_path_end (str_lower : string -> string) : Prop :=
  str_lower "" = ""%string
  /\ forall s, last (list_ascii_of_string s) = Some slash ->
               last (list_ascii_of_string (str_lower s)) = Some slash.

(** A resolver that keeps absolute URLs and hangs the others under the
    base, enough for sample pages. *)
Definition sample_urljoin (base_url reference : string) : string :=
  if String.prefix "http" reference then reference else (base_url ++ reference)%string.

Definition sample_anchors : list anchor :=
  [ {| href := "files/Population.XLSX"; get_text := "Population" |};
    {| href := "about.html"; get_text := "About" |};
    {| href := "files/prices.csv"; get_text := "" |} ]%string.

(** *** [NSIScraper.extract_categories] *)

(** What [extract_categories] reads of a [div.category-container]: the
    stripped text of its first [h3] or [h2], if it has one, and of its
    first [a], if it has one, the [href] attribute, if present. *)
Record container := {
  heading : option string;
  first_anchor : option (option string)
}.

(** The dictionaries it returns. *)
Record category := { category_title : string; category_url : string }.

(** The loop body after the heading was read. *)
Definition category_of (urljoin : string -> string -> string) (base_url : string)
    (title : string) (c : container) : list category :=
  match first_anchor c with
  | Some (Some h) => [ {| category_title := title; category_url := urljoin base_url h |} ]
  | _ => []
  end.

(** The loop, with the categories collected so far; [select_one] returns
    [None] where there is no heading, and [None.get_text] raises. *)
Fixpoint extract_categories_from (urljoin : string -> string -> string) (base_url : string)
    (containers : list container) (categories : list category)
    : outcome (list category) :=
  match containers with
  | [] => Return categories
  | category_elem :: rest =>
      match heading category_elem with
      | None => Raise (attribute_error "get_text")
      | Some category_title =>
          extract_categories_from urljoin base_url rest
            (categories ++ category_of urljoin base_url category_title category_elem)
      end
  end.

Definition extract_categories (urljoin : string -> string -> string) (base_url : string)
    (containers : list container) : outcome (list category) :=
  extract_categories_from urljoin base_url containers [].

Definition sample_containers : list container :=
  [ {| heading := Some "Population"; first_anchor := Some (Some "pop/") |};
    {| heading := None; first_anchor := None |} ]%string.

(** *** Proof automation *)

(** Case analysis on the next [match] or [if] of the goal. *)
Ltac split_match :=
  match goal with
  | |- context [match ?x with _ => _ end] => destruct x eqn:?
  end.

Ltac world_simpl :=
  cbn [fst snd db stats trace log set_db set_stats download_failed count_scraped
       start_time end_time duration files_scraped files_failed total_size errors] in *.

(** Each event of a transport trace is a request or a sleep. *)
Ltac transport_events :=
  repeat (constructor; [first [left; reflexivity | right; eexists; reflexivity]|]);
  try assumption; try constructor.

(* ===================================================================== *)
(** ** Properties of the content hasher                                   *)
(* ===================================================================== *)

Example sha256_empty :
  Sha256.hexdigest (Sha256.sha256 [])
  = "e3b0c44298fc1c149afbf4c8996fb92427ae41e4649b934ca495991b7852b855"%string.
Proof. vm_compute. reflexivity. Qed.

Example sha256_abc :
  Sha256.hexdigest (Sha256.sha256 (bytes_of_string "abc"))
  = "ba7816bf8f01cfea414140de5dae2223b00361a396177a9cb410ff61f20015ad"%string.
Proof. vm_compute. reflexivity. Qed.

Example sha256_two_blocks :
  Sha256.hexdigest
    (Sha256.sha256
       (bytes_of_string "abcdbcdecdefdefgefghfghighijhijkijkljklmklmnlmnomnopnopq"))
  = "248d6a61d20638b8e5c026930c3e6039a33ce45964ff2167f6ecedd419db06c1"%string.
Proof. vm_compute. reflexivity. Qed.

Section Absorb.
Import Sha256.
Local Open Scope nat_scope.

(** Whole blocks are compressed off the front: bytes appended behind
    them pass through untouched. *)
Lemma absorb_app n hs (xs ys : list byte) :
  64 * n <= length xs ->
  absorb n hs (xs ++ ys) = (fst (absorb n hs xs), snd (absorb n hs xs) ++ ys).
Proof.
  revert hs xs. induction n as [|n IH]; intros hs xs Hlen; cbn [absorb fst snd].
  - reflexivity.
  - rewrite take_app_le, drop_app_le by lia.
    apply IH. rewrite length_drop. lia.
Qed.

Lemma absorb_add n m hs (bs : list byte) :
  absorb (n + m) hs bs = absorb m (fst (absorb n hs bs)) (snd (absorb n hs bs)).
Proof.
  revert hs bs. induction n as [|n IH]; intros hs bs; cbn [absorb fst snd].
  - reflexivity.
  - apply IH.
Qed.

Lemma absorb_rest_length n hs (bs : list byte) :
  length (snd (absorb n hs bs)) = length bs - 64 * n.
Proof.
  revert hs bs. induction n as [|n IH]; intros hs bs; cbn [absorb fst snd].
  - lia.
  - rewrite IH, length_drop. lia.
Qed.

(** Feeding [a] and then [b] leaves the object where feeding [a ++ b]
    does. *)
Lemma update_update h (a b : list byte) :
  update (update h a) b = update h (a ++ b).
Proof.
  unfold update.
  remember (pending h ++ a) as bs1 eqn:Ebs.
  remember (length bs1 / 64) as n1 eqn:En1.
  assert (Hn1 : 64 * n1 <= length bs1) by (subst n1; apply Nat.Div0.mul_div_le).
  pose proof (absorb_rest_length n1 (chain h) bs1) as Hrest.
  pose proof (absorb_app n1 (chain h) bs1 b Hn1) as Happ.
  destruct (absorb n1 (chain h) bs1) as [h1 r1]. cbn [fst snd pending chain total] in *.
  replace (pending h ++ a ++ b) with (bs1 ++ b) by (subst bs1; now rewrite <- app_assoc).
  remember (length (r1 ++ b) / 64) as n2 eqn:En2.
  assert (Hn : length (bs1 ++ b) / 64 = n1 + n2).
  { subst n2. rewrite !length_app, Hrest.
    replace (length bs1 + length b) with ((length bs1 - 64 * n1 + length b) + n1 * 64) by lia.
    rewrite Nat.div_add by lia. lia. }
  rewrite Hn, absorb_add, Happ. cbn [fst snd].
  destruct (absorb n2 h1 (r1 ++ b)) as [h2 r2].
  f_equal. rewrite length_app. lia.
Qed.

Lemma fold_update chunks h (a : list byte) :
  fold_left update chunks (update h a) = update h (a ++ concat chunks).
Proof.
  revert a. induction chunks as [|c cs IH]; intros a; simpl.
  - now rewrite app_nil_r.
  - rewrite update_update, IH. now rewrite <- app_assoc.
Qed.

Lemma new_is_update : new = update new [].
Proof. reflexivity. Qed.

Lemma read_blocks_spec fuel (f : list byte) h a :
  length f < fuel ->
  read_blocks fuel f (update h a) = Some (update h (a ++ f)).
Proof.
  revert f a. induction fuel as [|fuel IH]; intros f a Hlt; [lia|].
  cbn [read_blocks]. destruct f as [|x f].
  - rewrite take_nil. now rewrite app_nil_r.
  - assert (Htake : take 4096 (x :: f) = x :: take 4095 f) by reflexivity.
    rewrite Htake at 1. cbv iota. rewrite <- Htake.
    rewrite update_update, IH.
    + now rewrite <- app_assoc, take_drop.
    + rewrite length_drop. cbn [length] in *. lia.
Qed.

Lemma consume_spec chunks content h a (size : Z) :
  fold_left consume_chunk chunks (content, update h a, size)
  = (content ++ concat chunks, update h (a ++ concat chunks),
     (size + Z.of_nat (length (concat chunks)))%Z).
Proof.
  revert content a size.
  induction chunks as [|c cs IH]; intros content a size; cbn [fold_left concat].
  - rewrite !app_nil_r. cbn [length]. f_equal. lia.
  - destruct c as [|x c].
    + cbn [consume_chunk app]. apply IH.
    + cbn [consume_chunk].
      rewrite update_update, IH. rewrite <- !app_assoc.
      f_equal. rewrite (length_app (x :: c)). lia.
Qed.
End Absorb.

Lemma consume_concat (chunks : list (list byte)) :
  consume chunks
  = (concat chunks, Sha256.sha256 (concat chunks), Z.of_nat (length (concat chunks))).
Proof.
  unfold consume, Sha256.sha256.
  rewrite new_is_update at 1. now rewrite consume_spec.
Qed.

(** C8. Digest determinism: for every byte sequence and every way of
    cutting it into consecutive chunks, feeding the chunks one after the
    other to a fresh hash object gives the hex digest that
    [_calculate_hash] gives for the whole sequence. This covers the read
    loop of [calculate_file_hash] (4096-byte blocks, which always
    terminates with that digest) and the chunk loop of [download_file]
    (which skips empty chunks, keeps the bytes and counts them). *)
Theorem digest_chunking_invariant :
  (forall chunks : list (list byte),
      Sha256.hexdigest (fold_left Sha256.update chunks Sha256.new)
      = _calculate_hash (concat chunks))
  /\ (forall file_content : list byte,
      calculate_file_hash file_content = Some (_calculate_hash file_content))
  /\ (forall chunks : list (list byte),
      consume chunks
      = (concat chunks, Sha256.sha256 (concat chunks), Z.of_nat (length (concat chunks)))).
Proof.
  split; [|split].
  - intros chunks. unfold _calculate_hash, Sha256.sha256.
    rewrite new_is_update at 1. now rewrite fold_update.
  - intros f. unfold calculate_file_hash, _calculate_hash, Sha256.sha256.
    rewrite new_is_update at 1.
    rewrite read_blocks_spec by lia. reflexivity.
  - apply consume_concat.
Qed.

(* ===================================================================== *)
(** ** Paths and MIME types on sample names                               *)
(* ===================================================================== *)

Example mime_type_samples :
  _get_mime_type "Report.XLSX"
  = "application/vnd.openxmlformats-officedocument.spreadsheetml.sheet"%string
  /\ _get_mime_type "data.csv" = "text/csv"%string
  /\ _get_mime_type ".bashrc" = "application/octet-stream"%string
  /\ _get_mime_type "archive.tar.gz" = "application/octet-stream"%string.
Proof. repeat split; reflexivity. Qed.

Example path_samples :
  path_join "/srv/scraped_files" ["NSI"; "report.xlsx"]%string
  = "/srv/scraped_files/NSI/report.xlsx"%string
  /\ path_join "/srv/" ["NSI"; "/abs.txt"]%string = "/abs.txt"%string
  /\ basename "/data/report.xlsx" = "report.xlsx"%string
  /\ resolve_file_name host_down None = "report.xlsx"%string
  /\ resolve_file_name host_down (Some "given.pdf"%string) = "given.pdf"%string.
Proof. repeat split; reflexivity. Qed.

(* ===================================================================== *)
(** ** Properties of the transport                                        *)
(* ===================================================================== *)

(** [time.sleep] performs the lengths called sleepable, and refuses a
    negative one. *)
Lemma time_sleep_ok (secs : Q) : sleepable secs -> time_sleep secs = Return tt.
Proof.
  intros [Hlo Hhi]. unfold time_sleep.
  assert (Hmin : Qle_bool SLEEP_MIN secs = true).
  { apply Qle_bool_iff. apply Qle_trans with 0%Q; [|exact Hlo].
    unfold Qle. vm_compute. discriminate. }
  rewrite Hmin. apply Qle_bool_iff in Hhi, Hlo. now rewrite Hhi, Hlo.
Qed.

Lemma time_sleep_negative (secs : Q) :
  (secs < 0)%Q -> exists ex, time_sleep secs = Raise ex /\ exc_kind ex = OtherException.
Proof.
  intros Hneg. unfold time_sleep.
  assert (Hlo : Qle_bool 0 secs = false).
  { destruct (Qle_bool 0 secs) eqn:E; [|reflexivity].
    apply Qle_bool_iff in E. exfalso. exact (Qlt_not_le _ _ Hneg E). }
  rewrite Hlo. destruct (_ && _); eexists; split; reflexivity.
Qed.

Lemma backoff_sleep_ok (self : BaseScraper) (k attempt : nat) :
  backoffs_sleepable self k -> (attempt < k)%nat -> backoff_sleep self attempt = Return tt.
Proof.
  intros Hall Hlt. destruct (Hall attempt Hlt) as [Hsmall Hok].
  unfold backoff_sleep, backoff_length.
  destruct (Nat.leb_spec 1024 attempt); [lia|]. now apply time_sleep_ok.
Qed.

Lemma backoffs_sleepable_le (self : BaseScraper) (k k' : nat) :
  (k' <= k)%nat -> backoffs_sleepable self k -> backoffs_sleepable self k'.
Proof. intros Hle Hall attempt Hlt. apply Hall. lia. Qed.

(** The default scraper, whose delay is one second, can sleep after each
    of its attempts. *)
Lemma nsi_backoffs_sleepable : backoffs_sleepable nsi 3.
Proof.
  intros attempt Hlt. split; [lia|].
  destruct attempt as [|[|[|attempt]]]; [| | |lia];
    (split; unfold Qle; vm_compute; discriminate).
Qed.

Lemma nsi_delay_sleepable : sleepable (request_delay nsi).
Proof. split; unfold Qle; vm_compute; discriminate. Qed.

Section Transport.
Variable self : BaseScraper.
Variable e : env.
Variable url : string.
Variable stream : bool.

Let sent := EvGet url (timeout_of self stream) stream.
Let retry_events (attempt : nat) := [sent; EvSleep (backoff self attempt)].

(** The loop over attempts [k .. k+m], all failing, where [k+m] is the
    index the loop recognises as the last one and the sleeps before it
    can be performed. *)
Lemma request_loop_all_fail m : forall k,
  Z.of_nat (k + m) = max_retries self - 1 ->
  backoffs_sleepable self (k + m) ->
  (forall a, (k <= a <= k + m)%nat -> fails_transiently e a) ->
  exists ex,
    attempt_result e (k + m) = Raise ex
    /\ exc_kind ex = RequestException
    /\ request_loop self e url stream (seq k (S m))
       = (Raise ex, flat_map retry_events (seq k m) ++ [sent]).
Proof.
  induction m as [|m IH]; intros k Hlast Hsleep Hfail.
  - destruct (Hfail k ltac:(lia)) as (ex & Hres & Hkind).
    exists ex. rewrite Nat.add_0_r. repeat split; trivial.
    cbn [seq request_loop flat_map app]. rewrite Hres, Hkind.
    rewrite Nat.add_0_r in Hlast. rewrite Hlast, Z.eqb_refl. reflexivity.
  - destruct (IH (S k)) as (ex & Hres & Hkind & Hloop).
    + rewrite <- Hlast. f_equal. lia.
    + replace (S k + m)%nat with (k + S m)%nat by lia. exact Hsleep.
    + intros a Ha. apply Hfail. lia.
    + destruct (Hfail k ltac:(lia)) as (ex0 & Hres0 & Hkind0).
      exists ex. replace (k + S m)%nat with (S k + m)%nat by lia.
      repeat split; trivial.
      change (seq k (S (S m))) with (k :: seq (S k) (S m)).
      cbn [request_loop]. rewrite Hres0, Hkind0.
      destruct (Z.eqb_spec (Z.of_nat k) (max_retries self - 1)) as [Heq|_]; [lia|].
      rewrite (backoff_sleep_ok self (k + S m) k Hsleep ltac:(lia)).
      rewrite Hloop. reflexivity.
Qed.

Lemma attempts_made_retries m k tail :
  attempts_made (flat_map retry_events (seq k m) ++ tail)
  = Z.of_nat m + attempts_made tail.
Proof.
  revert k. unfold attempts_made.
  induction m as [|m IH]; intros k; cbn [seq flat_map app].
  - lia.
  - unfold retry_events at 1. cbn [app]. rewrite !filter_cons.
    cbn [is_get sent]. repeat case_decide; try congruence.
    cbn [length]. specialize (IH (S k)). lia.
Qed.

Lemma sleeps_retries m k :
  sleeps (flat_map retry_events (seq k m) ++ [sent]) = map (backoff self) (seq k m).
Proof.
  revert k. induction m as [|m IH]; intros k; cbn [seq flat_map map].
  - reflexivity.
  - rewrite <- app_assoc. unfold sleeps in *. rewrite flat_map_app, IH.
    reflexivity.
Qed.

(** With at least one attempt allowed, every attempt failing and every
    backoff sleep one that can be performed, the call makes all the
    attempts and raises the last error. *)
Lemma all_fail_outcome :
  1 <= max_retries self ->
  backoffs_sleepable self (Z.to_nat (max_retries self) - 1) ->
  (forall attempt, fails_transiently e attempt) ->
  retry_bound_outcome self e url stream.
Proof.
  intros Hpos Hsleep Hfail. unfold retry_bound_outcome, _make_request, failing_trace.
  remember (Z.to_nat (max_retries self)) as n eqn:En.
  destruct n as [|m]; [lia|].
  destruct (request_loop_all_fail m 0) as (ex & Hres & Hkind & Hloop).
  - cbn [Nat.add]. lia.
  - cbn [Nat.add]. now replace (S m - 1)%nat with m in Hsleep by lia.
  - intros a _. apply Hfail.
  - exists ex. eexists. split; [exact Hloop|].
    replace (S m - 1)%nat with m by lia. cbn [Nat.add] in Hres.
    repeat split; trivial.
    + rewrite attempts_made_retries. unfold attempts_made.
      rewrite filter_cons. cbn [is_get sent]. case_decide; [|congruence].
      rewrite filter_nil. cbn [length]. lia.
    + apply sleeps_retries.
Qed.
End Transport.


Lemma host_down_fails : forall attempt, fails_transiently host_down attempt.
Proof. intros attempt. exists connection_error. split; reflexivity. Qed.



(** The call of that counterexample, evaluated. *)
Example no_retries_no_attempt :
  _make_request nsi_no_retries host_down sample_url true = (Return None, []).
Proof. reflexivity. Qed.

(** The bound on [request_delay] in the amended claims is needed: with a
    negative delay the first backoff sleep raises [ValueError], which
    leaves the call after one request in place of the request's error. *)
Example negative_delay_stops_retrying :
  _make_request nsi_negative_delay host_down sample_url true
  = (Raise (Exc OtherException "sleep length must be non-negative"),
     [EvGet sample_url 300 true]).
Proof. vm_compute. reflexivity. Qed.




(** The call of that counterexample, evaluated. *)
Example not_found_trace :
  _make_request nsi host_404 sample_url false
  = (Raise (Exc RequestException
              "404 Client Error: Not Found for url: https://www.nsi.bg/data/report.xlsx"),
     [EvGet sample_url 30 false; EvSleep 1;
      EvGet sample_url 30 false; EvSleep 2;
      EvGet sample_url 30 false]).
Proof. vm_compute. reflexivity. Qed.



(* ===================================================================== *)
(** ** Properties of [download_file]                                      *)
(* ===================================================================== *)

Lemma eqb_neq_false (a b : string) : a <> b -> String.eqb a b = false.
Proof. intros H. now apply String.eqb_neq. Qed.

Section Probe.
Variable self : BaseScraper.
Variable e : env.
Variable url : string.

(** The probe touches neither the table nor the statistics. *)
Lemma probe_frame existing_file overwrite w :
  db (snd (probe self e url existing_file overwrite w)) = db w
  /\ stats (snd (probe self e url existing_file overwrite w)) = stats w.
Proof. unfold probe. repeat split_match; world_simpl; auto. Qed.

Lemma probe_match pk existing etag w :
  session_head e = Return (Some etag) ->
  etag <> EmptyString ->
  etag = ScrapedFile.hash_value existing ->
  probe self e url (Some (pk, existing)) false w
  = (Some (Return (Some (ScrapedFile.file_path existing))),
     log [EvHead url (request_timeout self)] w).
Proof.
  intros Hhead Hne Heq. unfold probe. cbn [negb]. rewrite Hhead.
  rewrite (eqb_neq_false _ _ Hne). subst etag. now rewrite String.eqb_refl.
Qed.

Lemma probe_falls_through pk existing w :
  probe_fails_or_mismatches e existing ->
  probe self e url (Some (pk, existing)) false w
  = (None, log [EvHead url (request_timeout self)] w).
Proof.
  intros [(ex & Hhead & Hkind) | [Hhead | (tag & Hhead & Hne)]];
    unfold probe; cbn [negb]; rewrite Hhead.
  - now rewrite Hkind.
  - reflexivity.
  - rewrite (eqb_neq_false _ _ Hne). now rewrite andb_false_r.
Qed.
End Probe.

(** C3. With a row for (institution, url), [overwrite] false, and a HEAD
    probe that succeeds with a non-empty ETag equal, character for
    character, to the row's [hash_value]: the call returns the row's
    [file_path]; the only action on the outside world is the HEAD request,
    so no GET is sent and no body is read; the statistics and the table
    are what they were. *)
Theorem etag_match_skips_download (self : BaseScraper) (e : env) (url : string)
    (file_name : option string) (w : world) (pk : nat) (existing : ScrapedFile.t)
    (etag : string) :
  objects_filter_first (institution self) url (db w) = Some (pk, existing) ->
  session_head e = Return (Some etag) ->
  etag <> EmptyString ->
  etag = ScrapedFile.hash_value existing ->
  exists w',
    download_file self e url file_name false w
    = (Return (Some (ScrapedFile.file_path existing)), w')
    /\ trace w' = trace w ++ [EvHead url (request_timeout self)]
    /\ attempts_made (trace w') = attempts_made (trace w)
    /\ stats w' = stats w
    /\ db w' = db w.
Proof.
  intros Hfind Hhead Hne Heq. eexists. unfold download_file.
  rewrite Hfind, (probe_match self e url pk existing etag w Hhead Hne Heq).
  split; [reflexivity|]. world_simpl. repeat split.
  unfold attempts_made. rewrite filter_app, filter_cons. cbn [is_get].
  case_decide; [congruence|]. now rewrite filter_nil, app_nil_r.
Qed.

Lemma log_log (a b : list event) (w : world) : log b (log a w) = log (a ++ b) w.
Proof. unfold log. cbn [db stats trace]. now rewrite app_assoc. Qed.

Section Body.
Variable self : BaseScraper.
Variable e : env.
Variable url file_name : string.

(** Every way into the handler ends the same way. *)
Lemma download_body_error existing_file overwrite ex evs w :
  download_error self e url file_name existing_file overwrite ex evs ->
  download_body self e url file_name existing_file overwrite w
  = download_failed url e ex (log evs w).
Proof.
  intros Herr. unfold download_body.
  destruct Herr as [ex evs Hreq | evs Hreq | r ex evs Hreq Hstream
                   | r ex evs Hreq Hstream Hchanged Hsave];
    rewrite Hreq; try reflexivity.
  - now rewrite Hstream.
  - rewrite Hstream, consume_concat. fold (body r). fold (_calculate_hash (body r)).
    unfold content_unchanged in Hchanged.
    assert (Hstore :
      store_and_commit self e url file_name
        (path_join (SCRAPED_FILES_DIR self) [institution self; file_name])
        existing_file overwrite (body r) (Z.of_nat (length (body r)))
        (_calculate_hash (body r)) (log evs w)
      = download_failed url e ex (log (evs ++ [save_event self file_name r]) w)).
    { unfold store_and_commit. rewrite Hsave, log_log. reflexivity. }
    destruct existing_file as [[pk existing]|]; [rewrite Hchanged|]; exact Hstore.
Qed.

(** The retroactive skip. *)
Lemma download_body_unchanged existing_file overwrite r evs w pk existing :
  existing_file = Some (pk, existing) ->
  _make_request self e url true = (Return (Some r), evs) ->
  stream_error r = None ->
  content_unchanged existing_file overwrite r = true ->
  download_body self e url file_name existing_file overwrite w
  = (Return (Some (ScrapedFile.file_path existing)), log evs w).
Proof.
  intros Hex Hreq Hstream Hsame. unfold download_body.
  rewrite Hreq, Hstream, consume_concat. fold (body r). fold (_calculate_hash (body r)).
  subst existing_file. unfold content_unchanged in Hsame. now rewrite Hsame.
Qed.

(** The commit. *)
Lemma download_body_commit existing_file overwrite r evs w file_path :
  _make_request self e url true = (Return (Some r), evs) ->
  stream_error r = None ->
  content_unchanged existing_file overwrite r = false ->
  storage_save e = Return file_path ->
  download_body self e url file_name existing_file overwrite w
  = (Return (Some file_path),
     count_scraped (Z.of_nat (length (body r)))
       (set_db (committed self e url file_name existing_file r file_path (db w))
          (log (evs ++ [save_event self file_name r]) w))).
Proof.
  intros Hreq Hstream Hchanged Hsave. unfold download_body.
  rewrite Hreq, Hstream, consume_concat. fold (body r). fold (_calculate_hash (body r)).
  unfold content_unchanged in Hchanged.
  assert (Hstore :
    store_and_commit self e url file_name
      (path_join (SCRAPED_FILES_DIR self) [institution self; file_name])
      existing_file overwrite (body r) (Z.of_nat (length (body r)))
      (_calculate_hash (body r)) (log evs w)
    = (Return (Some file_path),
       count_scraped (Z.of_nat (length (body r)))
         (set_db (committed self e url file_name existing_file r file_path (db w))
            (log (evs ++ [save_event self file_name r]) w)))).
  { unfold store_and_commit, committed. rewrite Hsave, log_log.
    destruct existing_file as [[pk existing]|]; [|reflexivity].
    apply andb_false_iff in Hchanged as [Hne | Hov].
    - rewrite Hne. cbn [negb]. now rewrite orb_true_r.
    - apply negb_false_iff in Hov. now rewrite Hov. }
  destruct existing_file as [[pk existing]|]; [rewrite Hchanged|]; exact Hstore.
Qed.

Lemma download_body_cases existing_file overwrite w :
  body_outcome self e url file_name existing_file overwrite w
    (download_body self e url file_name existing_file overwrite w).
Proof.
  destruct (_make_request self e url true) as [[[r|]|ex] evs] eqn:Hreq.
  - destruct (stream_error r) as [ex|] eqn:Hstream.
    + rewrite (download_body_error existing_file overwrite ex evs); [|eapply BrokenStream; eauto].
      eapply BodyFailed, BrokenStream; eauto.
    + destruct (content_unchanged existing_file overwrite r) eqn:Hsame.
      * destruct existing_file as [[pk existing]|] eqn:Hex; [|discriminate].
        rewrite (download_body_unchanged _ overwrite r evs w pk existing); auto.
        eapply BodyUnchanged; eauto.
      * destruct (storage_save e) as [file_path|ex] eqn:Hsave.
        -- rewrite (download_body_commit existing_file overwrite r evs w file_path); auto.
           eapply BodyCommitted; eauto.
        -- rewrite (download_body_error existing_file overwrite ex (evs ++ [save_event self file_name r]));
             [|eapply StorageError; eauto].
           eapply BodyFailed, StorageError; eauto.
  - rewrite (download_body_error existing_file overwrite (attribute_error "iter_content") evs);
      [|eapply NoAttempt; eauto].
    eapply BodyFailed, NoAttempt; eauto.
  - rewrite (download_body_error existing_file overwrite ex evs); [|eapply RetriesExhausted; eauto].
    eapply BodyFailed, RetriesExhausted; eauto.
Qed.
End Body.

Section Download.
Variable self : BaseScraper.
Variable e : env.
Variable url : string.
Variable file_name : option string.

Let name := resolve_file_name e file_name.
Let head_event := EvHead url (request_timeout self).

(** What the probe can do: answer with the stored path, let an
    unexpected exception escape, or fall through; it sends at most the
    HEAD request. *)
Lemma probe_cases existing_file overwrite w o w1 :
  probe self e url existing_file overwrite w = (o, w1) ->
  (w1 = w \/ w1 = log [head_event] w)
  /\ (o = None
      \/ (exists pk existing, existing_file = Some (pk, existing)
                              /\ o = Some (Return (Some (ScrapedFile.file_path existing))))
      \/ (exists ex, o = Some (Raise ex))).
Proof.
  unfold probe. intros H.
  destruct existing_file as [[pk existing]|]; [|inversion H; auto].
  destruct overwrite; cbn [negb] in H; [inversion H; auto|].
  destruct (session_head e) as [[tag|]|ex].
  - destruct (negb (String.eqb tag "") && String.eqb tag (ScrapedFile.hash_value existing));
      inversion H; subst; split; eauto 7.
  - inversion H; auto.
  - destruct (exc_kind ex); inversion H; subst; split; eauto.
Qed.

(** A call either ends in the probe or is the [try] block run after it. *)
Lemma download_file_cases overwrite w :
  let existing_file := objects_filter_first (institution self) url (db w) in
  exists o w1,
    probe self e url existing_file overwrite w = (o, w1)
    /\ db w1 = db w /\ stats w1 = stats w
    /\ match o with
       | Some res =>
           download_file self e url file_name overwrite w = (res, w1)
           /\ res <> Return None
       | None =>
           download_file self e url file_name overwrite w
           = download_body self e url name existing_file overwrite w1
           /\ body_outcome self e url name existing_file overwrite w1
                (download_body self e url name existing_file overwrite w1)
       end.
Proof.
  intros existing_file.
  destruct (probe self e url existing_file overwrite w) as [o w1] eqn:Hprobe.
  exists o, w1. split; [reflexivity|].
  pose proof (probe_frame self e url existing_file overwrite w) as [Hdb Hstats].
  rewrite Hprobe in Hdb, Hstats. cbn [snd] in Hdb, Hstats.
  split; [exact Hdb|]. split; [exact Hstats|].
  unfold download_file. fold existing_file. rewrite Hprobe.
  destruct o as [res|].
  - split; [reflexivity|].
    destruct (probe_cases _ _ _ _ _ Hprobe) as [_ [Ho | [(pk & ex & _ & Ho) | (ex & Ho)]]];
      inversion Ho; subst; discriminate.
  - split; [reflexivity|]. apply download_body_cases.
Qed.

(** The table after a call: untouched (the call failed, skipped with
    the stored path of the existing row, or raised out of the probe), or
    changed by the one commit that follows a successful [storage.save]. *)
Lemma download_file_db overwrite w :
  let existing_file := objects_filter_first (institution self) url (db w) in
  let res := fst (download_file self e url file_name overwrite w) in
  let w' := snd (download_file self e url file_name overwrite w) in
  (db w' = db w
   /\ (res = Return None
       \/ (exists pk existing, existing_file = Some (pk, existing)
                               /\ res = Return (Some (ScrapedFile.file_path existing)))
       \/ (exists ex, res = Raise ex)))
  \/ exists r file_path pre,
       storage_save e = Return file_path
       /\ res = Return (Some file_path)
       /\ trace w' = pre ++ [save_event self name r]
       /\ db w' = committed self e url name existing_file r file_path (db w).
Proof.
  intros existing_file res w'. subst res w'.
  destruct (download_file_cases overwrite w) as (o & w1 & Hprobe & Hdb & _ & Hcase).
  fold existing_file in Hcase, Hprobe. destruct o as [res|].
  - destruct Hcase as [-> Hres]. left. split; [exact Hdb|]. cbn [fst].
    destruct (probe_cases _ _ _ _ _ Hprobe) as [_ [Ho | [(pk & ex & Hex & Ho) | (ex & Ho)]]];
      inversion Ho; subst; eauto 6.
  - destruct Hcase as [-> Hbody].
    inversion Hbody as [ex evs Herr Heq | r evs pk existing Hex Hreq Hstream Hsame Heq
                       | r evs file_path Hreq Hstream Hchanged Hsave Heq].
    + left. world_simpl. split; [exact Hdb | auto].
    + left. world_simpl. split; [exact Hdb | eauto 6].
    + right. exists r, file_path, (trace w1 ++ evs). world_simpl.
      rewrite Hdb. repeat split; trivial. now rewrite app_assoc.
Qed.

(** The statistics after a call: a failure counted and recorded and
    [None] returned, or nothing recorded and no failure counted. *)
Lemma download_file_stats overwrite w :
  let res := fst (download_file self e url file_name overwrite w) in
  let s' := stats (snd (download_file self e url file_name overwrite w)) in
  (res = Return None
   /\ files_failed s' = files_failed (stats w) + 1
   /\ exists ex, errors s' = errors (stats w)
                   ++ [ {| err_url := url; err_error := exc_str ex;
                           err_time := datetime_now e |} ])
  \/ (res <> Return None
      /\ files_failed s' = files_failed (stats w)
      /\ errors s' = errors (stats w)).
Proof.
  intros res s'. subst res s'.
  destruct (download_file_cases overwrite w) as (o & w1 & _ & _ & Hstats & Hcase).
  destruct o as [res|].
  - destruct Hcase as [-> Hres]. right. world_simpl. now rewrite Hstats.
  - destruct Hcase as [-> Hbody].
    inversion Hbody as [ex evs Herr Heq | r evs pk existing Hex Hreq Hstream Hsame Heq
                       | r evs file_path Hreq Hstream Hchanged Hsave Heq].
    + left. world_simpl. rewrite Hstats. eauto.
    + right. world_simpl. rewrite Hstats. repeat split; trivial. discriminate.
    + right. world_simpl. rewrite Hstats. repeat split; trivial. discriminate.
Qed.
End Download.

Section Requests.
Variable self : BaseScraper.
Variable e : env.
Variable url : string.
Variable stream : bool.

(** A call that returns a response was answered exactly once: the
    attempts before the answered one failed and were followed by their
    backoff sleep, and the answer by the politeness sleep. *)
Lemma request_loop_answered attempts r evs :
  request_loop self e url stream attempts = (Return (Some r), evs) ->
  exists failed attempt,
    Forall (fails_transiently e) failed
    /\ attempt_result e attempt = Return r
    /\ evs = flat_map (fun a => [EvGet url (timeout_of self stream) stream;
                                 EvSleep (backoff self a)]) failed
             ++ [EvGet url (timeout_of self stream) stream; EvSleep (request_delay self)].
Proof.
  revert evs. induction attempts as [|attempt rest IH]; intros evs Hloop;
    cbn [request_loop] in Hloop; [discriminate|].
  destruct (attempt_result e attempt) as [r0|ex] eqn:Hres.
  - destruct (time_sleep (request_delay self)); [|discriminate].
    inversion Hloop; subst. exists [], attempt. repeat split; trivial.
  - destruct (exc_kind ex) eqn:Hkind; [|discriminate].
    destruct (Z.of_nat attempt =? max_retries self - 1); [discriminate|].
    destruct (backoff_sleep self attempt); [|discriminate].
    destruct (request_loop self e url stream rest) as [res evs'] eqn:Hrest.
    inversion Hloop; subst.
    destruct (IH evs' eq_refl) as (failed & k & Hfailed & Hk & Hevs).
    exists (attempt :: failed), k. repeat split; trivial.
    + constructor; [exists ex; auto | exact Hfailed].
    + cbn [flat_map app]. now rewrite Hevs.
Qed.
(** Attempts that fail before the last one are retried when their backoff
    sleep can be performed: the loop goes on with the attempts that
    remain. *)
Lemma request_loop_skip_failed t : forall k rest,
  (forall a, (k <= a < k + t)%nat -> fails_transiently e a) ->
  backoffs_sleepable self (k + t) ->
  Z.of_nat (k + t) <= max_retries self - 1 ->
  request_loop self e url stream (seq k t ++ rest)
  = (fst (request_loop self e url stream rest),
     retried self url stream (seq k t) ++ snd (request_loop self e url stream rest)).
Proof.
  induction t as [|t IH]; intros k rest Hfail Hsleep Hlast.
  - cbn [seq app retried flat_map]. now destruct (request_loop self e url stream rest).
  - cbn [seq app request_loop].
    destruct (Hfail k ltac:(lia)) as (ex & -> & ->).
    destruct (Z.eqb_spec (Z.of_nat k) (max_retries self - 1)) as [Heq|_]; [lia|].
    rewrite (backoff_sleep_ok self (k + S t) k Hsleep ltac:(lia)).
    rewrite (IH (S k) rest).
    + reflexivity.
    + intros a Ha. apply Hfail. lia.
    + replace (S k + t)%nat with (k + S t)%nat by lia. exact Hsleep.
    + lia.
Qed.

(** The call up to attempt [k], which is within the budget, when the
    attempts before it fail and are followed by their backoff sleep. *)
Lemma make_request_skip_failed k :
  Z.of_nat k < max_retries self ->
  (forall a, (a < k)%nat -> fails_transiently e a) ->
  backoffs_sleepable self k ->
  _make_request self e url stream
  = (fst (request_loop self e url stream (seq k (Z.to_nat (max_retries self) - k))),
     retried self url stream (seq 0 k)
     ++ snd (request_loop self e url stream (seq k (Z.to_nat (max_retries self) - k)))).
Proof.
  intros Hk Hfail Hsleep. unfold _make_request.
  replace (Z.to_nat (max_retries self)) with (k + (Z.to_nat (max_retries self) - k))%nat
    at 1 by lia.
  rewrite seq_app. rewrite request_loop_skip_failed.
  - reflexivity.
  - intros a Ha. apply Hfail. lia.
  - exact Hsleep.
  - lia.
Qed.

(** An answer at attempt [k] after [k] failures: the response is returned
    once the politeness sleep is over. *)
Lemma make_request_answered k r :
  Z.of_nat k < max_retries self ->
  (forall a, (a < k)%nat -> fails_transiently e a) ->
  backoffs_sleepable self k ->
  sleepable (request_delay self) ->
  attempt_result e k = Return r ->
  _make_request self e url stream
  = (Return (Some r),
     retried self url stream (seq 0 k)
     ++ [EvGet url (timeout_of self stream) stream; EvSleep (request_delay self)]).
Proof.
  intros Hk Hfail Hsleep Hdelay Hok.
  rewrite (make_request_skip_failed k Hk Hfail Hsleep).
  replace (Z.to_nat (max_retries self) - k)%nat
    with (S (Z.to_nat (max_retries self) - S k)) by lia.
  cbn [seq request_loop]. rewrite Hok, (time_sleep_ok _ Hdelay). reflexivity.
Qed.

(** The requests and the sleeps of such a trace, counted. *)
Lemma attempts_made_retried k tail :
  attempts_made (retried self url stream (seq 0 k) ++ tail)
  = Z.of_nat k + attempts_made tail.
Proof. unfold retried. apply attempts_made_retries. Qed.

End Requests.

(** C4, as stated, fails: a probe that settles nothing leads to the body
    transport, but that need not bring a body. Against a host that
    refuses every connection the probe fails, the three attempts of the
    transport fail, and no body is downloaded at all. *)
Lemma dead_host_downloads_nothing :
  ~ (objects_filter_first (institution nsi) sample_url (db indexed_world)
     = Some (0%nat, stored_row) ->
     probe_fails_or_mismatches host_down stored_row ->
     exists r, full_body_download nsi host_down sample_url r).
Proof.
  intros Hclaim. destruct Hclaim as (r & Hreq & _).
  - reflexivity.
  - left. exists connection_error. split; reflexivity.
  - discriminate Hreq.
Qed.

(** The call of that counterexample, evaluated: the HEAD request, three
    GET requests that all fail, a failed file recorded. *)
Example dead_host_download_fails :
  download_file nsi host_down sample_url None false indexed_world
  = (Return None,
     {| db := [stored_row];
        stats := {| start_time := 1699999999000000; end_time := None; duration := None;
                    files_scraped := 0; files_failed := 1; total_size := 0;
                    errors := [ {| err_url := sample_url;
                                   err_error := "Connection refused";
                                   err_time := 1700000000000000 |} ] |};
        trace := [EvHead sample_url 30;
                  EvGet sample_url 300 true; EvSleep 1;
                  EvGet sample_url 300 true; EvSleep 2;
                  EvGet sample_url 300 true] |}).
Proof. vm_compute. reflexivity. Qed.

(** C4 (amended). With a row for (institution, url), [overwrite] false,
    and a probe that fails, finds no validator or finds a different one:
    when attempt [k] of the body transport, within [max_retries], is
    answered with a response whose body streams to its end, after [k]
    attempts that failed with a [RequestException] (the sleeps being
    lengths [time.sleep] accepts), exactly one full body download
    occurs. The call sends the HEAD request, the [k] failed requests with
    their backoff sleeps, the one answered request with the politeness
    sleep, and no other GET. When the digest of the body equals the row's
    [hash_value], the call returns the row's [file_path], [storage.save]
    is not called, and the table and the statistics are what they
    were; otherwise [storage.save] is called once, with the body. *)
Theorem probe_miss_downloads_once (self : BaseScraper) (e : env) (url : string)
    (file_name : option string) (w : world) (pk : nat) (existing : ScrapedFile.t)
    (k : nat) (r : response) :
  objects_filter_first (institution self) url (db w) = Some (pk, existing) ->
  probe_fails_or_mismatches e existing ->
  Z.of_nat k < max_retries self ->
  (forall a, (a < k)%nat -> fails_transiently e a) ->
  backoffs_sleepable self k ->
  sleepable (request_delay self) ->
  attempt_result e k = Return r ->
  stream_error r = None ->
  exists res w' tail,
    download_file self e url file_name false w = (res, w')
    /\ full_body_download self e url r
    /\ trace w' = trace w
                  ++ EvHead url (request_timeout self)
                     :: retried self url true (seq 0 k)
                     ++ [EvGet url (download_timeout self) true;
                         EvSleep (request_delay self)]
                     ++ tail
    /\ attempts_made (trace w') = attempts_made (trace w) + Z.of_nat k + 1
    /\ (_calculate_hash (body r) = ScrapedFile.hash_value existing ->
        res = Return (Some (ScrapedFile.file_path existing))
        /\ tail = []
        /\ db w' = db w
        /\ stats w' = stats w)
    /\ (_calculate_hash (body r) <> ScrapedFile.hash_value existing ->
        tail = [save_event self (resolve_file_name e file_name) r]).
Proof.
  intros Hfind Hprobe Hk Hfail Hsleep Hdelay Hok Hstream.
  set (name := resolve_file_name e file_name).
  pose proof (make_request_answered self e url true k r Hk Hfail Hsleep Hdelay Hok) as Hreq.
  cbn [timeout_of] in Hreq.
  assert (Hcall : download_file self e url file_name false w
                  = download_body self e url name (Some (pk, existing)) false
                      (log [EvHead url (request_timeout self)] w)).
  { unfold download_file. rewrite Hfind.
    now rewrite (probe_falls_through self e url pk existing w Hprobe). }
  assert (Hfull : full_body_download self e url r).
  { split; [now rewrite Hreq | exact Hstream]. }
  assert (Hcount : forall tail, Forall (fun ev => is_get ev = false) tail ->
    attempts_made (trace w
                   ++ EvHead url (request_timeout self)
                      :: retried self url true (seq 0 k)
                      ++ [EvGet url (download_timeout self) true;
                          EvSleep (request_delay self)]
                      ++ tail)
    = attempts_made (trace w) + Z.of_nat k + 1).
  { intros tail Htail.
    pose proof (attempts_made_retried self url true k
                  ([EvGet url (download_timeout self) true; EvSleep (request_delay self)]
                   ++ tail)) as Hretried. cbn [timeout_of] in Hretried.
    assert (Hnone : filter (fun ev => is_get ev = true) tail = []).
    { clear -Htail. induction Htail as [|ev tail Hev _ IH]; [reflexivity|].
      rewrite filter_cons. case_decide; [congruence | exact IH]. }
    unfold attempts_made in *. rewrite filter_app, filter_cons. cbn [is_get].
    case_decide; [congruence|]. rewrite length_app, Nat2Z.inj_add, Hretried.
    cbn [app]. rewrite !filter_cons. cbn [is_get].
    repeat case_decide; try congruence. rewrite Hnone. cbn [length]. lia. }
  pose proof (download_body_cases self e url name (Some (pk, existing)) false
                (log [EvHead url (request_timeout self)] w)) as Hbody.
  rewrite Hcall.
  inversion Hbody as [ex evs Herr Heq | r' evs pk' existing' Hex Hreq' Hstream' Hsame Heq
                     | r' evs file_path Hreq' Hstream' Hchanged Hsave Heq].
  - (* the handler ran: only a refused write can have led there *)
    destruct Herr as [ex evs Hreq' | evs Hreq' | r' ex evs Hreq' Hstream'
                     | r' ex evs Hreq' Hstream' Hchanged Hsave];
      rewrite Hreq in Hreq'; try discriminate Hreq';
      inversion Hreq'; subst r' evs; [congruence|].
    eexists _, _, [save_event self name r]. split; [reflexivity|].
    split; [exact Hfull|]. world_simpl. rewrite <- !app_assoc. cbn [app].
    split; [reflexivity|]. split; [apply Hcount; repeat constructor|].
    split; [|reflexivity].
    intros Hdigest. unfold content_unchanged in Hchanged.
    rewrite Hdigest, String.eqb_refl in Hchanged. discriminate.
  - (* unchanged content *)
    inversion Hex; subst pk' existing'.
    rewrite Hreq in Hreq'. inversion Hreq'; subst r' evs.
    eexists _, _, []. split; [reflexivity|].
    split; [exact Hfull|]. world_simpl. rewrite <- !app_assoc. cbn [app].
    split; [reflexivity|]. split; [apply Hcount; constructor|].
    split; [auto|].
    intros Hdigest. unfold content_unchanged in Hsame. cbn [negb] in Hsame.
    rewrite andb_true_r in Hsame. apply String.eqb_eq in Hsame. congruence.
  - (* commit *)
    rewrite Hreq in Hreq'. inversion Hreq'; subst r' evs.
    eexists _, _, [save_event self name r]. split; [reflexivity|].
    split; [exact Hfull|]. world_simpl. rewrite <- !app_assoc. cbn [app].
    split; [reflexivity|]. split; [apply Hcount; repeat constructor|].
    split; [|reflexivity].
    intros Hdigest. unfold content_unchanged in Hchanged.
    rewrite Hdigest, String.eqb_refl in Hchanged. discriminate.
Qed.

Lemma etag_match_skips_download_witness :
  exists w',
    download_file nsi host_etag_match sample_url None false indexed_world
    = (Return (Some "/srv/scraped_files/NSI/report.xlsx"%string), w')
    /\ trace w' = [EvHead sample_url 30]
    /\ attempts_made (trace w') = 0
    /\ stats w' = stats indexed_world
    /\ db w' = [stored_row].
Proof.
  apply (etag_match_skips_download nsi host_etag_match sample_url None indexed_world
           0%nat stored_row abc_digest).
  - reflexivity.
  - reflexivity.
  - discriminate.
  - reflexivity.
Defined.

Lemma probe_miss_downloads_once_witness :
  exists res w' tail,
    download_file nsi host_flaky sample_url None false indexed_world = (res, w')
    /\ full_body_download nsi host_flaky sample_url ok_abc
    /\ trace w' = trace indexed_world
                  ++ EvHead sample_url (request_timeout nsi)
                     :: retried nsi sample_url true (seq 0 2)
                     ++ [EvGet sample_url (download_timeout nsi) true;
                         EvSleep (request_delay nsi)]
                     ++ tail
    /\ attempts_made (trace w') = attempts_made (trace indexed_world) + Z.of_nat 2 + 1
    /\ (_calculate_hash (body ok_abc) = ScrapedFile.hash_value stored_row ->
        res = Return (Some (ScrapedFile.file_path stored_row))
        /\ tail = []
        /\ db w' = db indexed_world
        /\ stats w' = stats indexed_world)
    /\ (_calculate_hash (body ok_abc) <> ScrapedFile.hash_value stored_row ->
        tail = [save_event nsi (resolve_file_name host_flaky None) ok_abc]).
Proof.
  apply (probe_miss_downloads_once nsi host_flaky sample_url None indexed_world
           0%nat stored_row 2 ok_abc).
  - reflexivity.
  - right. left. reflexivity.
  - simpl. lia.
  - intros a Ha. exists connection_error.
    destruct a as [|[|a]]; [split; reflexivity | split; reflexivity | lia].
  - apply (backoffs_sleepable_le nsi 3); [lia | exact nsi_backoffs_sleepable].
  - exact nsi_delay_sleepable.
  - reflexivity.
  - reflexivity.
Defined.

(** The sample call of the retroactive skip, evaluated: one HEAD, one
    GET, the politeness sleep, no save, the stored path returned. *)
Example same_content_is_skipped :
  download_file nsi host_same_content sample_url None false indexed_world
  = (Return (Some "/srv/scraped_files/NSI/report.xlsx"%string),
     {| db := [stored_row]; stats := init_stats 1699999999000000;
        trace := [EvHead sample_url 30; EvGet sample_url 300 true; EvSleep 1] |}).
Proof. vm_compute. reflexivity. Qed.

(** A fresh URL, downloaded at the first attempt: one row created with
    the size and digest of the body, one file counted. *)
Example fresh_download_commits :
  download_file nsi host_same_content sample_url None false fresh_world
  = (Return (Some "/srv/scraped_files/NSI/report.xlsx"%string),
     {| db := [ created_row nsi sample_url "/srv/scraped_files/NSI/report.xlsx"
                  "report.xlsx" 3
                  "application/vnd.openxmlformats-officedocument.spreadsheetml.sheet"
                  abc_digest 1700000000000000 ];
        stats := {| start_time := 1699999999000000; end_time := None; duration := None;
                    files_scraped := 1; files_failed := 0; total_size := 3;
                    errors := [] |};
        trace := [EvGet sample_url 300 true; EvSleep 1;
                  EvSave "/srv/scraped_files/NSI/report.xlsx" (bytes_of_string "abc")] |}).
Proof. vm_compute. reflexivity. Qed.

(** With [MAX_RETRIES = 0] no request is sent and the handler records the
    attribute error raised on the missing response. *)
Example no_retries_download_fails :
  download_file nsi_no_retries host_down sample_url None false fresh_world
  = (Return None,
     {| db := [];
        stats := {| start_time := 1699999999000000; end_time := None; duration := None;
                    files_scraped := 0; files_failed := 1; total_size := 0;
                    errors := [ {| err_url := sample_url;
                                   err_error :=
                                     "'NoneType' object has no attribute 'iter_content'";
                                   err_time := 1700000000000000 |} ] |};
        trace := [] |}).
Proof. vm_compute. reflexivity. Qed.

(** C5. When [storage.save] raises, no row is created or updated. More
    generally the table changes only by the commit that follows a
    successful [storage.save], which is then the last action of the
    call, and the committed row carries the path that call returned. *)
Theorem failed_save_commits_nothing (self : BaseScraper) (e : env) (url : string)
    (file_name : option string) (overwrite : bool) (w : world) :
  let w' := snd (download_file self e url file_name overwrite w) in
  (forall ex, storage_save e = Raise ex -> db w' = db w)
  /\ (db w' <> db w ->
      exists r file_path pre,
        storage_save e = Return file_path
        /\ trace w' = pre ++ [save_event self (resolve_file_name e file_name) r]
        /\ db w' = committed self e url (resolve_file_name e file_name)
                     (objects_filter_first (institution self) url (db w)) r file_path (db w)).
Proof.
  intros w'. subst w'.
  destruct (download_file_db self e url file_name overwrite w)
    as [[Hsame _] | (r & file_path & pre & Hsave & _ & Htrace & Hdb)].
  - split; [intros; exact Hsame | intros Hne; contradiction].
  - split.
    + intros ex Hraise. rewrite Hsave in Hraise. discriminate.
    + intros _. exists r, file_path, pre. auto.
Qed.

Lemma failed_save_commits_nothing_witness :
  storage_save storage_full = Raise disk_full
  /\ db (snd (download_file nsi storage_full sample_url None true indexed_world))
     = db indexed_world.
Proof.
  split; [reflexivity|].
  exact (proj1 (failed_save_commits_nothing nsi storage_full sample_url None true
                  indexed_world) disk_full eq_refl).
Defined.

(** C7. A call that reaches the download and ends in the handler
    (retries exhausted, no attempt run, stream broken, or storage
    refusing the bytes) returns [None] instead of raising; it appends
    exactly one entry, with the URL, the error text and the time, to
    [errors], adds 1 to [files_failed], leaves [files_scraped] and
    [total_size] alone, and leaves the table alone. *)
Theorem failure_is_isolated (self : BaseScraper) (e : env) (url : string)
    (file_name : option string) (overwrite : bool) (w : world) (ex : exc)
    (evs : list event) :
  let existing_file := objects_filter_first (institution self) url (db w) in
  fst (probe self e url existing_file overwrite w) = None ->
  download_error self e url (resolve_file_name e file_name) existing_file overwrite ex evs ->
  exists w',
    download_file self e url file_name overwrite w = (Return None, w')
    /\ errors (stats w')
       = errors (stats w) ++ [ {| err_url := url; err_error := exc_str ex;
                                  err_time := datetime_now e |} ]
    /\ files_failed (stats w') = files_failed (stats w) + 1
    /\ files_scraped (stats w') = files_scraped (stats w)
    /\ total_size (stats w') = total_size (stats w)
    /\ db w' = db w.
Proof.
  intros existing_file Hprobe Herr.
  pose proof (probe_frame self e url existing_file overwrite w) as [Hdb Hstats].
  unfold download_file. fold existing_file.
  destruct (probe self e url existing_file overwrite w) as [o w1].
  cbn [fst snd] in *. subst o.
  rewrite (download_body_error self e url _ existing_file overwrite ex evs w1 Herr).
  eexists. split; [reflexivity|]. world_simpl. rewrite Hstats, Hdb. repeat split.
Qed.

Lemma failure_is_isolated_witness :
  exists w',
    download_file nsi host_down sample_url None false fresh_world = (Return None, w')
    /\ errors (stats w')
       = [ {| err_url := sample_url; err_error := "Connection refused";
              err_time := 1700000000000000 |} ]
    /\ files_failed (stats w') = 1
    /\ files_scraped (stats w') = 0
    /\ total_size (stats w') = 0
    /\ db w' = [].
Proof.
  apply (failure_is_isolated nsi host_down sample_url None false fresh_world
           connection_error (failing_trace nsi sample_url true 3)).
  - reflexivity.
  - apply RetriesExhausted. reflexivity.
Defined.

(* ===================================================================== *)
(** ** The file index                                                     *)
(* ===================================================================== *)

Section Index.
Variable self : BaseScraper.
Variable e : env.
Variable url name : string.

End Index.

(** The table after a call: as it was, or changed by the commit the call
    makes. *)
Lemma index_after_cases (c : download_call) (d : table) :
  index_after c d = d
  \/ exists r file_path,
       commits c d r file_path
       /\ index_after c d
          = committed (call_self c) (call_env c) (call_url c)
              (resolve_file_name (call_env c) (call_file_name c))
              (objects_filter_first (institution (call_self c)) (call_url c) d) r file_path d.
Proof.
  unfold index_after, commits.
  destruct (download_file_cases (call_self c) (call_env c) (call_url c) (call_file_name c)
              (call_overwrite c) {| db := d; stats := call_stats c; trace := [] |})
    as (o & w1 & Hprobe & Hdb & _ & Hcase).
  cbn [db] in *. rewrite Hprobe. destruct o as [res|].
  - destruct Hcase as [-> _]. left. exact Hdb.
  - destruct Hcase as [-> Hbody].
    inversion Hbody as [ex evs Herr Heq | r evs pk existing Hex Hreq Hstream Hsame Heq
                       | r evs file_path Hreq Hstream Hchanged Hsave Heq].
    + left. world_simpl. exact Hdb.
    + left. world_simpl. exact Hdb.
    + right. exists r, file_path. world_simpl. rewrite Hreq, Hdb.
      repeat split; trivial.
Qed.





(* ===================================================================== *)
(** ** The run statistics                                                 *)
(* ===================================================================== *)

Section Stats.
Variable self : BaseScraper.

(** A page fetch records its failure without counting it. *)
Lemma fetch_page_stats e url w :
  let res := fst (fetch_page self e url w) in
  let s' := stats (snd (fetch_page self e url w)) in
  files_failed s' = files_failed (stats w)
  /\ files_scraped s' = files_scraped (stats w)
  /\ total_size s' = total_size (stats w)
  /\ ((res = Return None
       /\ exists ex, errors s' = errors (stats w)
                       ++ [ {| err_url := url; err_error := exc_str ex;
                               err_time := datetime_now e |} ])
      \/ (res <> Return None /\ errors s' = errors (stats w))).
Proof.
  unfold fetch_page.
  destruct (_make_request self e url false) as [[[r|]|ex] evs]; world_simpl.
  1-2: repeat split; right; split; [discriminate | reflexivity].
  destruct (exc_kind ex); world_simpl.
  - repeat split. left. eauto.
  - repeat split. right. split; [discriminate | reflexivity].
Qed.

Lemma count_cons p r rs :
  count p (r :: rs) = (if p r then 1 else 0) + count p rs.
Proof.
  unfold count. rewrite filter_cons.
  destruct (p r); case_decide; try congruence; cbn [length]; lia.
Qed.

(** One call: [files_failed] grows by one exactly when a download
    returns [None]; [errors] grows by one exactly when a download or a
    page fetch returns [None]. *)
Lemma step_stats o w :
  let r := fst (step self o w) in
  let s' := stats (snd (step self o w)) in
  files_failed s' = files_failed (stats w) + (if is_failed_file r then 1 else 0)
  /\ Z.of_nat (length (errors s'))
     = Z.of_nat (length (errors (stats w)))
       + (if is_failed_file r then 1 else 0) + (if is_failed_page r then 1 else 0).
Proof.
  destruct o as [e url | e url file_name overwrite | now]; cbn [step].
  - pose proof (fetch_page_stats e url w) as Hpage.
    destruct (fetch_page self e url w) as [res w']. cbn [fst snd] in *.
    destruct Hpage as (Hfailed & _ & _ & [[-> (ex & ->)] | [Hres ->]]).
    + cbn [is_failed_file is_failed_page]. rewrite length_app. cbn [length]. lia.
    + cbn [is_failed_file]. split; [lia|].
      destruct res as [[p|]|ex]; cbn [is_failed_page]; try lia. congruence.
  - pose proof (download_file_stats self e url file_name overwrite w) as Hfile.
    destruct (download_file self e url file_name overwrite w) as [res w'].
    cbn [fst snd] in *.
    destruct Hfile as [(-> & Hfailed & ex & ->) | (Hres & Hfailed & ->)].
    + cbn [is_failed_file is_failed_page]. rewrite length_app. cbn [length]. lia.
    + cbn [is_failed_page].
      destruct res as [[p|]|ex]; cbn [is_failed_file]; try lia. congruence.
  - cbn [fst snd is_failed_file is_failed_page]. unfold finalize. world_simpl. lia.
Qed.

Lemma run_stats ops : forall w,
  let rs := fst (run self ops w) in
  let s' := stats (snd (run self ops w)) in
  files_failed s' = files_failed (stats w) + count is_failed_file rs
  /\ Z.of_nat (length (errors s'))
     = Z.of_nat (length (errors (stats w)))
       + count is_failed_file rs + count is_failed_page rs.
Proof.
  induction ops as [|o ops IH]; intros w; cbn [run].
  - cbn [fst snd]. unfold count. rewrite !filter_nil. cbn [length]. lia.
  - pose proof (step_stats o w) as Hstep.
    destruct (step self o w) as [r w1]. cbn [fst snd] in Hstep.
    specialize (IH w1). destruct (run self ops w1) as [rs w2].
    cbn [fst snd] in *. rewrite !count_cons. lia.
Qed.
End Stats.

(** C10. A page fetch that returns [None] appends one entry to [errors]
    and leaves [files_failed] (and the other counters) alone. Hence over
    any sequence of calls [files_failed] grows by the number of downloads
    that returned [None], while [errors] grows by that number plus the
    number of page fetches that returned [None]; a single failed page
    fetch on a fresh scraper leaves one error against zero failed
    files. *)
Theorem page_failures_are_not_counted :
  (forall (self : BaseScraper) (e : env) (url : string) (w : world),
      fst (fetch_page self e url w) = Return None ->
      let s' := stats (snd (fetch_page self e url w)) in
      (exists ex, errors s' = errors (stats w)
                    ++ [ {| err_url := url; err_error := exc_str ex;
                            err_time := datetime_now e |} ])
      /\ files_failed s' = files_failed (stats w))
  /\ (forall (self : BaseScraper) (ops : list op) (w : world),
        let rs := fst (run self ops w) in
        let s' := stats (snd (run self ops w)) in
        files_failed s' = files_failed (stats w) + count is_failed_file rs
        /\ Z.of_nat (length (errors s'))
           = Z.of_nat (length (errors (stats w)))
             + count is_failed_file rs + count is_failed_page rs)
  /\ (let s' := stats (snd (run nsi [OpFetchPage host_down sample_url] fresh_world)) in
      files_failed s' = 0 /\ length (errors s') = 1%nat).
Proof.
  split; [|split].
  - intros self e url w Hnone s'. subst s'.
    destruct (fetch_page_stats self e url w) as (Hfailed & _ & _ & [[_ Herr] | [Hres _]]).
    + split; assumption.
    + contradiction.
  - intros self ops w. apply run_stats.
  - vm_compute. split; reflexivity.
Qed.

Lemma page_failures_are_not_counted_witness :
  fst (fetch_page nsi host_down sample_url fresh_world) = Return None
  /\ errors (stats (snd (fetch_page nsi host_down sample_url fresh_world)))
     = [ {| err_url := sample_url; err_error := "Connection refused";
            err_time := 1700000000000000 |} ]
  /\ files_failed (stats (snd (fetch_page nsi host_down sample_url fresh_world))) = 0.
Proof.
  assert (H : fst (fetch_page nsi host_down sample_url fresh_world) = Return None)
    by reflexivity.
  split; [exact H|].
  pose proof (proj1 page_failures_are_not_counted nsi host_down sample_url fresh_world H)
    as [_ Hfailed].
  split; [reflexivity | exact Hfailed].
Defined.

(** C9, as stated, fails: nothing guards [finalize] against a second
    call, which is not rejected and overwrites the end time and the
    duration with those of the later clock reading. *)
Lemma second_finalize_overwrites :
  ~ finalize_is_stable 1700000100000000 1700000200000000 fresh_world.
Proof. intros [Hend _]. discriminate Hend. Qed.

(** C9 (amended). A second [finalize] is not rejected and the last call
    wins: the statistics end up as if only the second call had been made,
    with [end_time] the second clock reading and [duration] its distance
    from the unchanged [start_time]; the counters, the errors and the
    table are untouched. The end time and duration of the first call
    survive exactly when the two clock readings are equal. *)
Theorem finalize_last_call_wins (t1 t2 : Z) (w : world) :
  finalize t2 (finalize t1 w) = finalize t2 w
  /\ end_time (stats (finalize t2 (finalize t1 w))) = Some t2
  /\ duration (stats (finalize t2 (finalize t1 w))) = Some (t2 - start_time (stats w))
  /\ start_time (stats (finalize t2 (finalize t1 w))) = start_time (stats w)
  /\ files_scraped (stats (finalize t2 (finalize t1 w))) = files_scraped (stats w)
  /\ files_failed (stats (finalize t2 (finalize t1 w))) = files_failed (stats w)
  /\ total_size (stats (finalize t2 (finalize t1 w))) = total_size (stats w)
  /\ errors (stats (finalize t2 (finalize t1 w))) = errors (stats w)
  /\ db (finalize t2 (finalize t1 w)) = db w
  /\ (finalize_is_stable t1 t2 w <-> t1 = t2).
Proof.
  repeat split; try reflexivity.
  - intros [Hend _]. cbn in Hend. congruence.
  - subst t2. reflexivity.
  - subst t2. reflexivity.
Qed.

(* ===================================================================== *)
(** ** More of the transport                                              *)
(* ===================================================================== *)

Section Attempts.
Variable self : BaseScraper.
Variable e : env.
Variable url : string.
Variable stream : bool.

(** However the attempts turn out, each sends one request, and each sleep
    follows a request. *)
Lemma request_loop_bound attempts :
  let evs := snd (request_loop self e url stream attempts) in
  attempts_made evs <= Z.of_nat (length attempts)
  /\ Z.of_nat (length (sleeps evs)) <= attempts_made evs
  /\ Forall (fun ev => ev = EvGet url (timeout_of self stream) stream
                       \/ exists q, ev = EvSleep q) evs.
Proof.
  induction attempts as [|attempt rest IH]; cbn [request_loop].
  - cbn [snd]. unfold attempts_made, sleeps. rewrite filter_nil. cbn [length flat_map].
    repeat split; try lia. constructor.
  - destruct (attempt_result e attempt) as [r|ex];
      [destruct (time_sleep (request_delay self))
      |destruct (exc_kind ex);
        [destruct (Z.of_nat attempt =? max_retries self - 1);
          [|destruct (backoff_sleep self attempt)]|]].
    1-3,5-6: cbn [snd]; unfold attempts_made, sleeps;
      rewrite ?filter_cons, ?filter_nil; cbn [is_get];
      repeat case_decide; try congruence;
      cbn [length flat_map app]; repeat split; try lia; transport_events.
    destruct (request_loop self e url stream rest) as [res evs].
    cbn [snd] in *. destruct IH as (Hgets & Hsleep & Hall).
    unfold attempts_made, sleeps in *. rewrite !filter_cons. cbn [is_get].
    repeat case_decide; try congruence.
    cbn [length flat_map app] in *.
    repeat split; try lia. transport_events.
Qed.
End Attempts.



(** The bound on the delay is needed there too: with a negative delay the
    politeness sleep raises [ValueError] inside the [try] block, and the
    response that was received is lost. *)
Example negative_delay_loses_response :
  _make_request nsi_negative_delay host_same_content sample_url true
  = (Raise (Exc OtherException "sleep length must be non-negative"),
     [EvGet sample_url 300 true]).
Proof. vm_compute. reflexivity. Qed.

(** X2. The retry budget is never exceeded: whatever the remote does,
    [_make_request] sends at most [max_retries] requests (none when
    [max_retries] is zero or negative), never sleeps more often than it
    sends, and does nothing else: every request goes to the given URL
    with the timeout of the mode. *)
Theorem retry_budget_is_respected (self : BaseScraper) (e : env) (url : string)
    (stream : bool) :
  let evs := snd (_make_request self e url stream) in
  attempts_made evs <= Z.max 0 (max_retries self)
  /\ Z.of_nat (length (sleeps evs)) <= attempts_made evs
  /\ Forall (fun ev => ev = EvGet url (timeout_of self stream) stream
                       \/ exists q, ev = EvSleep q) evs.
Proof.
  pose proof (request_loop_bound self e url stream (seq 0 (Z.to_nat (max_retries self))))
    as (Hget & Hsleep & Hall).
  unfold _make_request. cbn zeta. rewrite length_seq in Hget.
  repeat split; trivial. lia.
Qed.

(** X3. An exception of [session.get] that is not a [RequestException]
    is not retried: when the attempts before attempt [k] fail
    transiently and are followed by their backoff sleep (the lengths
    [request_delay * 2 ** attempt] being ones [time.sleep] accepts), and
    attempt [k], within the budget, raises such an exception, it leaves
    [_make_request] at once, with no sleep after the last request and no
    further attempt. *)
Theorem unexpected_exception_is_not_retried (self : BaseScraper) (e : env)
    (url : string) (stream : bool) (k : nat) (ex : exc) :
  Z.of_nat k < max_retries self ->
  (forall a, (a < k)%nat -> fails_transiently e a) ->
  backoffs_sleepable self k ->
  attempt_result e k = Raise ex ->
  exc_kind ex = OtherException ->
  _make_request self e url stream
  = (Raise ex,
     retried self url stream (seq 0 k) ++ [EvGet url (timeout_of self stream) stream]).
Proof.
  intros Hk Hfail Hsleep Hres Hkind.
  rewrite (make_request_skip_failed self e url stream k Hk Hfail Hsleep).
  replace (Z.to_nat (max_retries self) - k)%nat
    with (S (Z.to_nat (max_retries self) - S k)) by lia.
  cbn [seq request_loop]. rewrite Hres, Hkind. reflexivity.
Qed.

Lemma unexpected_exception_is_not_retried_witness :
  _make_request nsi host_late_crash sample_url false
  = (Raise decode_error,
     retried nsi sample_url false [0]%nat ++ [EvGet sample_url 30 false]).
Proof.
  apply (unexpected_exception_is_not_retried nsi host_late_crash sample_url false 1
           decode_error).
  - simpl. lia.
  - intros a Ha. exists connection_error.
    destruct a as [|a]; [split; reflexivity | lia].
  - apply (backoffs_sleepable_le nsi 3); [lia | exact nsi_backoffs_sleepable].
  - reflexivity.
  - reflexivity.
Defined.

(** X4. Without retry budget ([max_retries] zero or negative) no request
    is ever sent: [_make_request] returns [None]; [fetch_page] then does
    not report a failed page but lets the attribute error on the missing
    response escape, recording nothing; [download_file], once past the
    probe, records that attribute error as a failed file without having
    sent a single GET. *)
Theorem no_budget_no_request (self : BaseScraper) (e : env) (url : string) (w : world) :
  max_retries self <= 0 ->
  (forall stream, _make_request self e url stream = (Return None, []))
  /\ fst (fetch_page self e url w) = Raise (attribute_error "text")
  /\ stats (snd (fetch_page self e url w)) = stats w
  /\ trace (snd (fetch_page self e url w)) = trace w
  /\ (forall file_name overwrite,
        fst (probe self e url (objects_filter_first (institution self) url (db w))
               overwrite w) = None ->
        let res := fst (download_file self e url file_name overwrite w) in
        let w' := snd (download_file self e url file_name overwrite w) in
        res = Return None
        /\ files_failed (stats w') = files_failed (stats w) + 1
        /\ errors (stats w')
           = errors (stats w)
             ++ [ {| err_url := url;
                     err_error := "'NoneType' object has no attribute 'iter_content'";
                     err_time := datetime_now e |} ]
        /\ attempts_made (trace w') = attempts_made (trace w)).
Proof.
  intros Hmax.
  assert (Hreq : forall stream, _make_request self e url stream = (Return None, [])).
  { intros stream. unfold _make_request.
    replace (Z.to_nat (max_retries self)) with 0%nat by lia. reflexivity. }
  split; [exact Hreq|].
  split; [|split; [|split]].
  1-3: unfold fetch_page; rewrite Hreq; world_simpl; rewrite ?app_nil_r; reflexivity.
  intros file_name overwrite Hprobe res w'. subst res w'.
  pose proof (probe_frame self e url (objects_filter_first (institution self) url (db w))
                overwrite w) as [_ Hstats].
  unfold download_file.
  destruct (probe self e url (objects_filter_first (institution self) url (db w))
              overwrite w) as [o w1] eqn:Hp.
  cbn [fst snd] in *. subst o.
  destruct (probe_cases self e url _ _ _ _ _ Hp) as [Hw1 _].
  unfold download_body. rewrite Hreq. world_simpl. rewrite Hstats, app_nil_r.
  repeat split.
  destruct Hw1 as [-> | ->]; [reflexivity|]. world_simpl.
  unfold attempts_made. rewrite filter_app, filter_cons. cbn [is_get].
  case_decide; [congruence|]. now rewrite filter_nil, app_nil_r.
Qed.

Lemma no_budget_no_request_witness :
  max_retries nsi_no_retries <= 0
  /\ fst (fetch_page nsi_no_retries host_down sample_url fresh_world)
     = Raise (attribute_error "text").
Proof.
  assert (H : max_retries nsi_no_retries <= 0) by (simpl; lia).
  split; [exact H|].
  exact (proj1 (proj2 (no_budget_no_request nsi_no_retries host_down sample_url
                         fresh_world H))).
Defined.

(* ===================================================================== *)
(** ** More of [download_file]                                            *)
(* ===================================================================== *)

Section Commit.
Variable self : BaseScraper.
Variable e : env.
Variable url : string.
Variable file_name : option string.

Let name := resolve_file_name e file_name.

(** A call that is past the probe without a HEAD request, gets a
    complete body and stores it, commits. *)
Lemma download_file_commits overwrite w r evs file_path :
  probe self e url (objects_filter_first (institution self) url (db w)) overwrite w
  = (None, w) ->
  _make_request self e url true = (Return (Some r), evs) ->
  stream_error r = None ->
  content_unchanged (objects_filter_first (institution self) url (db w)) overwrite r
  = false ->
  storage_save e = Return file_path ->
  download_file self e url file_name overwrite w
  = (Return (Some file_path),
     count_scraped (Z.of_nat (length (body r)))
       (set_db (committed self e url name
                  (objects_filter_first (institution self) url (db w)) r file_path (db w))
          (log (evs ++ [save_event self name r]) w))).
Proof.
  intros Hprobe Hreq Hstream Hchanged Hsave. unfold download_file. rewrite Hprobe.
  now apply download_body_commit.
Qed.

(** The row a commit writes is the one a lookup of the pair finds
    afterwards. *)
Lemma committed_lookup r file_path (d : table) :
  exists pk row,
    objects_filter_first (institution self) url
      (committed self e url name (objects_filter_first (institution self) url d)
         r file_path d)
    = Some (pk, row)
    /\ ScrapedFile.file_path row = file_path
    /\ ScrapedFile.hash_value row = _calculate_hash (body r)
    /\ ScrapedFile.file_size row = Z.of_nat (length (body r))
    /\ match objects_filter_first (institution self) url d with
       | Some (pk0, _) => pk = pk0
       | None => pk = length d
       end.
Proof.
  unfold committed, objects_filter_first.
  destruct (list_find _ d) as [[pk existing]|] eqn:Hfind.
  - apply list_find_Some in Hfind as (Hlookup & [Hinst Hurl] & Hfirst).
    eexists pk, _. split.
    { apply list_find_insert_Some. right. left.
      split; [reflexivity|]. split; [reflexivity|].
      split; [eapply lookup_lt_Some; eauto|].
      split; [split; assumption | exact Hfirst]. }
    repeat split; reflexivity.
  - eexists (length d), _. split.
    { unfold objects_create. rewrite list_find_app_r by exact Hfind.
      cbn [list_find]. rewrite decide_True by (split; reflexivity). reflexivity. }
    repeat split; reflexivity.
Qed.
End Commit.





(** X7. Whenever [download_file] returns a path, a lookup of
    (institution, url) in the table it leaves behind finds a row whose
    [file_path] is that path. *)
Theorem returned_path_is_indexed (self : BaseScraper) (e : env) (url : string)
    (file_name : option string) (overwrite : bool) (w : world) (file_path : string) :
  fst (download_file self e url file_name overwrite w) = Return (Some file_path) ->
  exists pk row,
    objects_filter_first (institution self) url
      (db (snd (download_file self e url file_name overwrite w)))
    = Some (pk, row)
    /\ ScrapedFile.file_path row = file_path.
Proof.
  intros Hres.
  destruct (download_file_db self e url file_name overwrite w)
    as [[Hdb [Hfail | [(pk & existing & Hex & Hret) | (ex & Hraise)]]]
       | (r & file_path' & pre & _ & Hret & _ & Hdb)].
  - congruence.
  - rewrite Hdb. exists pk, existing. split; [exact Hex|]. congruence.
  - congruence.
  - rewrite Hdb.
    destruct (committed_lookup self e url file_name r file_path' (db w))
      as (pk & row & Hlookup & Hpath & _).
    exists pk, row. split; [exact Hlookup|]. congruence.
Qed.

Lemma returned_path_is_indexed_witness :
  exists pk row,
    objects_filter_first (institution nsi) sample_url
      (db (snd (download_file nsi host_flaky sample_url None false fresh_world)))
    = Some (pk, row)
    /\ ScrapedFile.file_path row = "/srv/scraped_files/NSI/report.xlsx"%string.
Proof.
  apply (returned_path_is_indexed nsi host_flaky sample_url None false fresh_world).
  reflexivity.
Defined.

Section Frame.
Variable self : BaseScraper.
Variable e : env.
Variable url name : string.

(** A commit leaves every row where it is; it changes at most the row of
    the pair, of which it keeps the key, the file name and the creation
    time. *)
Lemma committed_frame r file_path (d : table) :
  let d' := committed self e url name (objects_filter_first (institution self) url d)
              r file_path d in
  (length d <= length d' <= S (length d))%nat
  /\ forall j row,
       d !! j = Some row ->
       exists row',
         d' !! j = Some row'
         /\ ScrapedFile.key row' = ScrapedFile.key row
         /\ ScrapedFile.file_name row' = ScrapedFile.file_name row
         /\ ScrapedFile.date_created row' = ScrapedFile.date_created row
         /\ (ScrapedFile.key row <> (institution self, url) -> row' = row).
Proof.
  unfold committed, objects_filter_first.
  destruct (list_find _ d) as [[pk existing]|] eqn:Hfind; cbn zeta.
  - apply list_find_Some in Hfind as (Hlookup & [Hinst Hurl] & _).
    unfold save_row. rewrite length_insert. split; [lia|].
    intros j row Hrow. destruct (decide (j = pk)) as [->|Hne].
    + rewrite Hlookup in Hrow. inversion Hrow; subst row.
      eexists. split; [apply list_lookup_insert_eq; eapply lookup_lt_Some; eauto|].
      repeat split. intros Hkey. exfalso. apply Hkey.
      unfold ScrapedFile.key. now rewrite Hinst, Hurl.
    + exists row. rewrite list_lookup_insert_ne by congruence. auto.
  - unfold objects_create. rewrite length_app. cbn [length]. split; [lia|].
    intros j row Hrow. exists row. split; [|auto].
    rewrite lookup_app_l; [exact Hrow | eapply lookup_lt_Some; eauto].
Qed.
End Frame.

(** X8. [download_file] never deletes or moves a row and adds at most
    one; a row of another (institution, url) pair is left exactly as it
    was; the row of the pair itself keeps its key, its [file_name] and its
    [date_created] even when it is rewritten. *)
Theorem other_rows_are_untouched (self : BaseScraper) (e : env) (url : string)
    (file_name : option string) (overwrite : bool) (w : world) :
  let d' := db (snd (download_file self e url file_name overwrite w)) in
  (length (db w) <= length d' <= S (length (db w)))%nat
  /\ forall j row,
       db w !! j = Some row ->
       exists row',
         d' !! j = Some row'
         /\ ScrapedFile.key row' = ScrapedFile.key row
         /\ ScrapedFile.file_name row' = ScrapedFile.file_name row
         /\ ScrapedFile.date_created row' = ScrapedFile.date_created row
         /\ (ScrapedFile.key row <> (institution self, url) -> row' = row).
Proof.
  intros d'. subst d'.
  destruct (download_file_db self e url file_name overwrite w)
    as [[-> _] | (r & file_path & pre & _ & _ & _ & ->)].
  - split; [lia|]. intros j row Hrow. exists row. auto.
  - apply committed_frame.
Qed.

Lemma transport_never_saves (self : BaseScraper) (e : env) (url : string) (stream : bool) :
  Forall (fun ev => is_save ev = false) (snd (_make_request self e url stream)).
Proof.
  pose proof (request_loop_bound self e url stream (seq 0 (Z.to_nat (max_retries self))))
    as (_ & _ & Hall).
  unfold _make_request. eapply Forall_impl; [exact Hall|].
  intros ev [-> | (q & ->)]; reflexivity.
Qed.

(** X9. Downloading the same content twice stores it once: after a call
    that committed a fresh URL, a second call without [overwrite] that
    receives the same bytes (whatever the chunking, file name or ETag)
    returns the path stored by the first, calls [storage.save] not at
    all, and leaves the table and the statistics as the first call left
    them. *)
Theorem repeated_download_is_skipped (self : BaseScraper) (e1 e2 : env) (url : string)
    (file_name1 file_name2 : option string) (overwrite1 : bool) (w : world)
    (r1 r2 : response) (evs1 evs2 : list event) (file_path : string) :
  objects_filter_first (institution self) url (db w) = None ->
  _make_request self e1 url true = (Return (Some r1), evs1) ->
  stream_error r1 = None ->
  storage_save e1 = Return file_path ->
  (forall ex, session_head e2 = Raise ex -> exc_kind ex = RequestException) ->
  _make_request self e2 url true = (Return (Some r2), evs2) ->
  stream_error r2 = None ->
  body r2 = body r1 ->
  let w1 := snd (download_file self e1 url file_name1 overwrite1 w) in
  exists w2 new,
    download_file self e2 url file_name2 false w1 = (Return (Some file_path), w2)
    /\ db w2 = db w1
    /\ stats w2 = stats w1
    /\ trace w2 = trace w1 ++ new
    /\ Forall (fun ev => is_save ev = false) new.
Proof.
  intros Hnone Hreq1 Hs1 Hsave1 Hhead Hreq2 Hs2 Hbody w1.
  assert (Hdb1 : db w1 = committed self e1 url (resolve_file_name e1 file_name1)
                           (objects_filter_first (institution self) url (db w))
                           r1 file_path (db w)).
  { subst w1.
    rewrite (download_file_commits self e1 url file_name1 overwrite1 w r1 evs1 file_path);
      trivial; rewrite Hnone; reflexivity. }
  destruct (committed_lookup self e1 url file_name1 r1 file_path (db w))
    as (pk & row & Hlookup & Hpath & Hhash & _).
  rewrite <- Hdb1 in Hlookup.
  assert (Hsame : content_unchanged (Some (pk, row)) false r2 = true).
  { unfold content_unchanged. rewrite Hhash, Hbody, String.eqb_refl. reflexivity. }
  pose proof (transport_never_saves self e2 url true) as Hnosave.
  rewrite Hreq2 in Hnosave. cbn [snd] in Hnosave.
  unfold download_file. rewrite Hlookup. unfold probe. cbn [negb].
  destruct (session_head e2) as [[tag|]|ex] eqn:Hh.
  - destruct (negb (String.eqb tag "") && String.eqb tag (ScrapedFile.hash_value row)).
    + eexists _, _. rewrite Hpath. split; [reflexivity|]. world_simpl.
      repeat split. repeat constructor.
    + rewrite (download_body_unchanged self e2 url _ _ false r2 evs2 _ pk row);
        trivial.
      eexists _, _. rewrite Hpath. split; [reflexivity|]. world_simpl.
      rewrite <- app_assoc. repeat split. constructor; [reflexivity | exact Hnosave].
  - rewrite (download_body_unchanged self e2 url _ _ false r2 evs2 _ pk row); trivial.
    eexists _, _. rewrite Hpath. split; [reflexivity|]. world_simpl.
    rewrite <- app_assoc. repeat split. constructor; [reflexivity | exact Hnosave].
  - rewrite (Hhead ex eq_refl).
    rewrite (download_body_unchanged self e2 url _ _ false r2 evs2 _ pk row); trivial.
    eexists _, _. rewrite Hpath. split; [reflexivity|]. world_simpl.
    rewrite <- app_assoc. repeat split. constructor; [reflexivity | exact Hnosave].
Qed.

Lemma repeated_download_is_skipped_witness :
  exists w2 new,
    download_file nsi host_same_content sample_url (Some "again.xlsx"%string) false
      (snd (download_file nsi host_flaky sample_url None false fresh_world))
    = (Return (Some "/srv/scraped_files/NSI/report.xlsx"%string), w2)
    /\ db w2 = db (snd (download_file nsi host_flaky sample_url None false fresh_world))
    /\ stats w2
       = stats (snd (download_file nsi host_flaky sample_url None false fresh_world))
    /\ trace w2
       = trace (snd (download_file nsi host_flaky sample_url None false fresh_world))
         ++ new
    /\ Forall (fun ev => is_save ev = false) new.
Proof.
  apply (repeated_download_is_skipped nsi host_flaky host_same_content sample_url
           None (Some "again.xlsx"%string) false fresh_world ok_abc ok_abc
           (retried nsi sample_url true [0; 1]%nat
            ++ [EvGet sample_url 300 true; EvSleep 1])
           [EvGet sample_url 300 true; EvSleep 1]
           "/srv/scraped_files/NSI/report.xlsx");
    try reflexivity.
  intros ex Hraise. discriminate Hraise.
Defined.

Lemma other_rows_length (self : BaseScraper) (e : env) (url : string)
    (file_name : option string) (overwrite : bool) (w : world) :
  (length (db w) <= length (db (snd (download_file self e url file_name overwrite w))))%nat.
Proof.
  destruct (download_file_db self e url file_name overwrite w)
    as [[-> _] | (r & file_path & pre & _ & _ & _ & ->)].
  - lia.
  - apply (committed_frame self e url (resolve_file_name e file_name) r file_path (db w)).
Qed.

(* ===================================================================== *)
(** ** More of the run statistics                                         *)
(* ===================================================================== *)

Lemma evolves_refl (w : world) : evolves 0 w w.
Proof. split; try lia; reflexivity. Qed.

Lemma evolves_trans (n m : Z) (w1 w2 w3 : world) :
  evolves n w1 w2 -> evolves m w2 w3 -> evolves (n + m) w1 w3.
Proof.
  intros [] []. split; try lia; try congruence.
  etransitivity; eassumption.
Qed.

Section Evolution.
Variable self : BaseScraper.

Lemma download_file_evolves e url file_name overwrite w :
  evolves 1 w (snd (download_file self e url file_name overwrite w))
  /\ end_time (stats (snd (download_file self e url file_name overwrite w)))
     = end_time (stats w)
  /\ duration (stats (snd (download_file self e url file_name overwrite w)))
     = duration (stats w).
Proof.
  pose proof (other_rows_length self e url file_name overwrite w) as Hrows.
  destruct (download_file_cases self e url file_name overwrite w)
    as (o & w1 & _ & _ & Hstats & Hcase).
  destruct o as [res|].
  - destruct Hcase as [Heq _]. rewrite Heq in *. cbn [snd] in *.
    repeat split; rewrite ?Hstats; try lia; try reflexivity.
  - destruct Hcase as [Heq Hbody]. rewrite Heq in *.
    inversion Hbody as [ex evs Herr Hw | r evs pk existing Hex Hreq Hstream Hsame Hw
                       | r evs file_path Hreq Hstream Hchanged Hsave Hw];
      rewrite <- Hw in Hrows; world_simpl;
      repeat split; world_simpl; rewrite ?Hstats; try lia; try reflexivity;
      try exact Hrows.
    now apply prefix_app_r.
Qed.

Lemma fetch_page_evolves e url w :
  evolves 0 w (snd (fetch_page self e url w))
  /\ end_time (stats (snd (fetch_page self e url w))) = end_time (stats w)
  /\ duration (stats (snd (fetch_page self e url w))) = duration (stats w).
Proof.
  unfold fetch_page.
  destruct (_make_request self e url false) as [[[r|]|ex] evs]; world_simpl.
  1-2: repeat split; world_simpl; try lia; reflexivity.
  destruct (exc_kind ex); world_simpl; repeat split; world_simpl; try lia;
    try reflexivity.
  now apply prefix_app_r.
Qed.

Lemma step_evolves o w :
  evolves (if is_download o then 1 else 0) w (snd (step self o w))
  /\ (is_finalize o = false ->
      end_time (stats (snd (step self o w))) = end_time (stats w)
      /\ duration (stats (snd (step self o w))) = duration (stats w)).
Proof.
  destruct o as [e url | e url file_name overwrite | now]; cbn [step is_download is_finalize].
  - pose proof (fetch_page_evolves e url w) as (Hev & Hend & Hdur).
    destruct (fetch_page self e url w). cbn [snd] in *. auto.
  - pose proof (download_file_evolves e url file_name overwrite w) as (Hev & Hend & Hdur).
    destruct (download_file self e url file_name overwrite w). cbn [snd] in *. auto.
  - cbn [snd]. split; [|discriminate].
    unfold finalize. split; world_simpl; try lia; reflexivity.
Qed.

Lemma run_cons o ops w :
  snd (run self (o :: ops) w) = snd (run self ops (snd (step self o w))).
Proof.
  cbn [run]. destruct (step self o w) as [r w1]. cbn [snd].
  now destruct (run self ops w1).
Qed.

Lemma run_evolves ops : forall w,
  evolves (downloads ops) w (snd (run self ops w))
  /\ (forallb (fun o => negb (is_finalize o)) ops = true ->
      end_time (stats (snd (run self ops w))) = end_time (stats w)
      /\ duration (stats (snd (run self ops w))) = duration (stats w)).
Proof.
  induction ops as [|o ops IH]; intros w.
  - cbn [run snd]. split; [apply evolves_refl | auto].
  - rewrite run_cons. destruct (step_evolves o w) as [Hstep Hclock].
    destruct (IH (snd (step self o w))) as [Hrun Hclocks]. split.
    + replace (downloads (o :: ops))
        with ((if is_download o then 1 else 0) + downloads ops).
      * eapply evolves_trans; eassumption.
      * unfold downloads. rewrite filter_cons.
        destruct (is_download o); case_decide; try congruence; cbn [length]; lia.
    + cbn [forallb]. intros Hall. apply andb_true_iff in Hall as [Ho Hops].
      apply negb_true_iff in Ho.
      destruct (Hclocks Hops) as [-> ->]. exact (Hclock Ho).
Qed.

Lemma run_app ops1 : forall ops2 w,
  snd (run self (ops1 ++ ops2) w) = snd (run self ops2 (snd (run self ops1 w))).
Proof.
  induction ops1 as [|o ops1 IH]; intros ops2 w.
  - reflexivity.
  - cbn [app]. rewrite !run_cons. apply IH.
Qed.
End Evolution.

(** X10. Over any sequence of calls on one scraper the counters
    [files_scraped], [files_failed] and [total_size] never decrease; each
    [download_file] call is counted at most once, as scraped or as
    failed, so the two counters together grow by no more than the number
    of downloads; [start_time] is never changed; errors already recorded
    stay in place as a prefix of the list; and the table never loses a
    row. *)
Theorem counters_only_grow (self : BaseScraper) (ops : list op) (w : world) :
  let w' := snd (run self ops w) in
  start_time (stats w') = start_time (stats w)
  /\ files_scraped (stats w) <= files_scraped (stats w')
  /\ files_failed (stats w) <= files_failed (stats w')
  /\ total_size (stats w) <= total_size (stats w')
  /\ (files_scraped (stats w') - files_scraped (stats w))
     + (files_failed (stats w') - files_failed (stats w)) <= downloads ops
  /\ errors (stats w) `prefix_of` errors (stats w')
  /\ (length (db w) <= length (db w'))%nat.
Proof.
  destruct (run_evolves self ops w) as [[] _]. cbn zeta. auto 10.
Qed.

(** X11. The life cycle of the run's clock fields: as long as [finalize]
    is not among the calls, [end_time] and [duration] stay as they were
    (unset on a fresh scraper); a run that ends with [finalize] at time
    [t] has [end_time] [t] and as [duration] the distance from [t] to the
    [start_time] the scraper was created with, whatever happened in
    between. *)
Theorem clock_fields_belong_to_finalize (self : BaseScraper) (ops : list op) (w : world) :
  (forallb (fun o => negb (is_finalize o)) ops = true ->
   end_time (stats (snd (run self ops w))) = end_time (stats w)
   /\ duration (stats (snd (run self ops w))) = duration (stats w))
  /\ (forall t,
        let w' := snd (run self (ops ++ [OpFinalize t]) w) in
        end_time (stats w') = Some t
        /\ duration (stats w') = Some (t - start_time (stats w))).
Proof.
  destruct (run_evolves self ops w) as [[Hstart _ _ _ _ _ _] Hclock].
  split; [exact Hclock|].
  intros t w'. subst w'. rewrite run_app. cbn [run step snd].
  unfold finalize. world_simpl. now rewrite Hstart.
Qed.

Lemma clock_fields_belong_to_finalize_witness :
  end_time (stats (snd (run nsi [OpFetchPage host_down sample_url;
                                 OpDownloadFile host_flaky sample_url None false]
                          fresh_world)))
  = None
  /\ duration (stats (snd (run nsi [OpFetchPage host_down sample_url;
                                    OpDownloadFile host_flaky sample_url None false]
                             fresh_world)))
     = None.
Proof.
  apply (proj1 (clock_fields_belong_to_finalize nsi
                  [OpFetchPage host_down sample_url;
                   OpDownloadFile host_flaky sample_url None false] fresh_world)).
  reflexivity.
Defined.

(* ===================================================================== *)
(** ** The shape of the stored digests                                    *)
(* ===================================================================== *)

Section DigestShape.
Import Sha256.

Lemma round_length v kw : length v = 8%nat -> length (round v kw) = 8%nat.
Proof.
  intros Hv. do 9 (destruct v as [|? v]; try discriminate Hv). reflexivity.
Qed.

Lemma rounds_length kws : forall v,
  length v = 8%nat -> length (fold_left round kws v) = 8%nat.
Proof.
  induction kws as [|kw kws IH]; intros v Hv; cbn [fold_left]; [exact Hv|].
  apply IH, round_length, Hv.
Qed.

Lemma compress_length hs block : length hs = 8%nat -> length (compress hs block) = 8%nat.
Proof.
  intros Hhs. unfold compress.
  rewrite length_map, length_combine, rounds_length by exact Hhs. rewrite Hhs. reflexivity.
Qed.

Lemma absorb_chain_length n : forall hs bs,
  length hs = 8%nat -> length (fst (absorb n hs bs)) = 8%nat.
Proof.
  induction n as [|n IH]; intros hs bs Hhs; cbn [absorb fst]; [exact Hhs|].
  apply IH, compress_length, Hhs.
Qed.

Lemma update_chain_length h data :
  length (chain h) = 8%nat -> length (chain (update h data)) = 8%nat.
Proof.
  intros Hh. unfold update.
  pose proof (absorb_chain_length (length (pending h ++ data) / 64) (chain h)
                (pending h ++ data) Hh) as Hlen.
  destruct (absorb _ (chain h) (pending h ++ data)) as [hs rest]. exact Hlen.
Qed.

Lemma hex_digit_is_hex z : is_hex (hex_digit z) = true.
Proof.
  unfold hex_digit. generalize (Z.to_nat z). intros n.
  do 16 (destruct n as [|n]; [reflexivity|]). destruct n; reflexivity.
Qed.

Lemma all_hex_append s1 s2 :
  all_hex (s1 ++ s2) = all_hex s1 && all_hex s2.
Proof.
  induction s1 as [|c s1 IH]; simpl; [reflexivity|].
  now rewrite IH, andb_assoc.
Qed.

Lemma length_append s1 s2 :
  String.length (s1 ++ s2) = (String.length s1 + String.length s2)%nat.
Proof.
  induction s1 as [|c s1 IH]; simpl; [reflexivity|].
  now rewrite IH.
Qed.

Lemma hex_word_shape x : String.length (hex_word x) = 8%nat /\ all_hex (hex_word x) = true.
Proof.
  unfold hex_word. cbn [seq map string_of_list_ascii String.length all_hex].
  split; [reflexivity|]. now rewrite !hex_digit_is_hex.
Qed.

Lemma hexdigest_shape h : length (chain h) = 8%nat -> is_digest (hexdigest h).
Proof.
  intros Hh. unfold hexdigest, digest_words.
  pose proof (absorb_chain_length (length (pending h ++ padding h) / 64) (chain h)
                (pending h ++ padding h) Hh) as Hlen.
  destruct (fst (absorb _ (chain h) (pending h ++ padding h))) as [|w0 ws];
    [discriminate|].
  do 8 (destruct ws as [|? ws]; try discriminate Hlen).
  cbn [map fold_right]. unfold is_digest.
  rewrite !length_append, !all_hex_append.
  repeat match goal with
         | |- context [hex_word ?x] =>
             let Hl := fresh in let Ha := fresh in
             destruct (hex_word_shape x) as [Hl Ha]; rewrite Hl, Ha; clear Hl Ha
         end.
  split; reflexivity.
Qed.
End DigestShape.

Lemma calculate_hash_shape (content : list byte) : is_digest (_calculate_hash content).
Proof.
  unfold _calculate_hash, Sha256.sha256. apply hexdigest_shape, update_chain_length.
  reflexivity.
Qed.

Lemma index_after_digests (c : download_call) (d : table) :
  Forall (fun row => is_digest (ScrapedFile.hash_value row)) d ->
  Forall (fun row => is_digest (ScrapedFile.hash_value row)) (index_after c d).
Proof.
  intros Hd. destruct (index_after_cases c d) as [-> | (r & file_path & _ & ->)]; [exact Hd|].
  unfold committed.
  destruct (objects_filter_first _ _ d) as [[pk existing]|].
  - unfold save_row. apply Forall_insert; [exact Hd|]. apply calculate_hash_shape.
  - unfold objects_create. apply Forall_app. split; [exact Hd|].
    constructor; [apply calculate_hash_shape | constructor].
Qed.

(** X12. Every digest the scraper computes is 64 lower-case hexadecimal
    digits, so it fits the 64-character [hash_value] column exactly; and
    a table whose rows all hold such digests still does after any
    sequence of [download_file] calls. *)
Theorem stored_digests_are_well_formed :
  (forall content : list byte, is_digest (_calculate_hash content))
  /\ (forall file_content : list byte,
        exists digest, calculate_file_hash file_content = Some digest /\ is_digest digest)
  /\ (forall (cs : list download_call) (d : table),
        Forall (fun row => is_digest (ScrapedFile.hash_value row)) d ->
        Forall (fun row => is_digest (ScrapedFile.hash_value row)) (index_after_all cs d)).
Proof.
  split; [exact calculate_hash_shape|]. split.
  - intros f. exists (_calculate_hash f). split; [|apply calculate_hash_shape].
    unfold calculate_file_hash, _calculate_hash, Sha256.sha256.
    rewrite new_is_update at 1. rewrite read_blocks_spec by lia. reflexivity.
  - intros cs. induction cs as [|c cs IH]; intros d Hd; cbn [index_after_all fold_left].
    + exact Hd.
    + apply IH, index_after_digests, Hd.
Qed.

Lemma stored_digests_are_well_formed_witness :
  Forall (fun row => is_digest (ScrapedFile.hash_value row)) [stored_row]
  /\ Forall (fun row => is_digest (ScrapedFile.hash_value row))
       (index_after_all [first_download; forced_download] [stored_row]).
Proof.
  assert (H : Forall (fun row => is_digest (ScrapedFile.hash_value row)) [stored_row]).
  { constructor; [split; reflexivity | constructor]. }
  split; [exact H|].
  exact (proj2 (proj2 stored_digests_are_well_formed) [first_download; forced_download]
           [stored_row] H).
Defined.

(* ===================================================================== *)
(** ** More paths through [download_file] and [fetch_page]                *)
(* ===================================================================== *)



(** X14. The HEAD probe is outside the [try] block and its handler
    catches [RequestException] only: when [session.head] raises anything
    else for a URL that has a row, with [overwrite] off, the exception
    leaves [download_file]. No GET is sent, nothing is counted in
    [files_failed] or added to [errors], and the table is untouched. *)
Theorem probe_exception_escapes (self : BaseScraper) (e : env) (url : string)
    (file_name : option string) (w : world) (pk : nat) (existing : ScrapedFile.t)
    (ex : exc) :
  objects_filter_first (institution self) url (db w) = Some (pk, existing) ->
  session_head e = Raise ex ->
  exc_kind ex = OtherException ->
  exists w',
    download_file self e url file_name false w = (Raise ex, w')
    /\ trace w' = trace w ++ [EvHead url (request_timeout self)]
    /\ stats w' = stats w
    /\ db w' = db w.
Proof.
  intros Hfind Hhead Hkind. eexists. unfold download_file, probe.
  rewrite Hfind. cbn [negb]. rewrite Hhead, Hkind.
  split; [reflexivity|]. world_simpl. repeat split.
Qed.

Lemma probe_exception_escapes_witness :
  exists w',
    download_file nsi host_head_crash sample_url None false indexed_world
    = (Raise decode_error, w')
    /\ trace w' = trace indexed_world ++ [EvHead sample_url (request_timeout nsi)]
    /\ stats w' = stats indexed_world
    /\ db w' = db indexed_world.
Proof.
  apply (probe_exception_escapes nsi host_head_crash sample_url None indexed_world
           0%nat stored_row decode_error); reflexivity.
Defined.

(** X15. A URL that fails on every attempt, end to end: with
    [max_retries] at least 1 and backoff sleeps that can all be performed
    (a [request_delay] that is not negative, with
    [request_delay * 2 ** attempt] a length [time.sleep] accepts for
    every attempt before the last), [fetch_page] returns [None] after
    exactly [max_retries] requests made with [request_timeout] and the
    backoff sleeps between them, and records the text of the last
    attempt's error; [download_file], once past the probe, does the same
    with [download_timeout], and also counts a failed file. Neither
    touches the table. *)
Theorem permanent_failure_end_to_end (self : BaseScraper) (e : env) (url : string)
    (w : world) :
  1 <= max_retries self ->
  backoffs_sleepable self (Z.to_nat (max_retries self) - 1) ->
  (forall attempt, fails_transiently e attempt) ->
  exists ex,
    attempt_result e (Z.to_nat (max_retries self) - 1) = Raise ex
    /\ (let res := fst (fetch_page self e url w) in
        let w' := snd (fetch_page self e url w) in
        res = Return None
        /\ trace w' = trace w
                      ++ failing_trace self url false (Z.to_nat (max_retries self))
        /\ errors (stats w')
           = errors (stats w) ++ [ {| err_url := url; err_error := exc_str ex;
                                      err_time := datetime_now e |} ]
        /\ files_failed (stats w') = files_failed (stats w)
        /\ db w' = db w)
    /\ (forall file_name overwrite w1,
          probe self e url (objects_filter_first (institution self) url (db w))
            overwrite w = (None, w1) ->
          let res := fst (download_file self e url file_name overwrite w) in
          let w' := snd (download_file self e url file_name overwrite w) in
          res = Return None
          /\ trace w' = trace w1
                        ++ failing_trace self url true (Z.to_nat (max_retries self))
          /\ errors (stats w')
             = errors (stats w) ++ [ {| err_url := url; err_error := exc_str ex;
                                        err_time := datetime_now e |} ]
          /\ files_failed (stats w') = files_failed (stats w) + 1
          /\ db w' = db w).
Proof.
  intros Hpos Hsleep Hfail.
  destruct (all_fail_outcome self e url false Hpos Hsleep Hfail)
    as (ex & evs & Hpage & _ & _ & -> & Hlast).
  destruct (all_fail_outcome self e url true Hpos Hsleep Hfail)
    as (ex' & evs' & Hfile & _ & _ & -> & Hlast').
  assert (ex' = ex) by congruence. subst ex'.
  assert (Hkind : exc_kind ex = RequestException).
  { destruct (Hfail (Z.to_nat (max_retries self) - 1)%nat) as (ex0 & Hex0 & Hk).
    congruence. }
  exists ex. split; [exact Hlast|]. split.
  - unfold fetch_page. rewrite Hpage, Hkind. world_simpl. repeat split.
  - intros file_name overwrite w1 Hprobe.
    pose proof (probe_frame self e url (objects_filter_first (institution self) url (db w))
                  overwrite w) as [Hdb Hstats].
    rewrite Hprobe in Hdb, Hstats. cbn [snd] in Hdb, Hstats.
    unfold download_file. rewrite Hprobe. unfold download_body. rewrite Hfile.
    world_simpl. rewrite Hdb, Hstats. repeat split.
Qed.

Lemma permanent_failure_end_to_end_witness :
  exists ex,
    attempt_result host_down (Z.to_nat (max_retries nsi) - 1) = Raise ex
    /\ fst (fetch_page nsi host_down sample_url fresh_world) = Return None
    /\ trace (snd (fetch_page nsi host_down sample_url fresh_world))
       = failing_trace nsi sample_url false 3.
Proof.
  destruct (permanent_failure_end_to_end nsi host_down sample_url fresh_world
              ltac:(simpl; lia)
              (backoffs_sleepable_le nsi 3 2 ltac:(lia) nsi_backoffs_sleepable)
              host_down_fails)
    as (ex & Hlast & (Hres & Htrace & _) & _).
  exists ex. split; [exact Hlast|]. split; [exact Hres | exact Htrace].
Defined.

(* ===================================================================== *)
(** ** MIME types and storage paths                                       *)
(* ===================================================================== *)

Lemma lower_keeps_separators (x c : ascii) :
  c = slash \/ c = dot -> Ascii.eqb (lower_ascii x) c = Ascii.eqb x c.
Proof.
  intros [-> | ->]; destruct x as [[] [] [] [] [] [] [] []]; reflexivity.
Qed.

Lemma rfind_from_lower (c : ascii) (l : list ascii) :
  c = slash \/ c = dot ->
  forall i last, rfind_from c (map lower_ascii l) i last = rfind_from c l i last.
Proof.
  intros Hc. induction l as [|x l IH]; intros i last; cbn [map rfind_from].
  - reflexivity.
  - now rewrite IH, lower_keeps_separators.
Qed.

Lemma forallb_dot_lower (l : list ascii) :
  forallb (fun x => Ascii.eqb x dot) (map lower_ascii l)
  = forallb (fun x => Ascii.eqb x dot) l.
Proof.
  induction l as [|x l IH]; cbn [map forallb]; [reflexivity|].
  rewrite IH, lower_keeps_separators by now right. reflexivity.
Qed.

(** Taking the extension and lowering the case commute: lowering neither
    creates nor removes a dot or a slash. *)
Lemma splitext_lower (s : string) : splitext_ext (lower s) = lower (splitext_ext s).
Proof.
  unfold splitext_ext, lower, rfind.
  rewrite list_ascii_of_string_of_list_ascii.
  rewrite !rfind_from_lower by auto.
  destruct (rfind_from slash _ 0 (-1) <? rfind_from dot _ 0 (-1)); [|reflexivity].
  rewrite skipn_map, firstn_map, forallb_dot_lower.
  destruct (forallb _ _); [reflexivity|].
  now rewrite list_ascii_of_string_of_list_ascii, skipn_map.
Qed.

(** X16. The MIME type does not depend on the letter case of the file
    name: two names that differ only in the case of ASCII letters get the
    same type. *)
Theorem mime_type_ignores_case (a b : string) :
  lower a = lower b -> _get_mime_type a = _get_mime_type b.
Proof.
  intros Hab. unfold _get_mime_type. now rewrite <- !splitext_lower, Hab.
Qed.

Lemma mime_type_ignores_case_witness :
  _get_mime_type "Annual Report.XLSX" = _get_mime_type "annual report.xlsx".
Proof.
  apply (mime_type_ignores_case "Annual Report.XLSX" "annual report.xlsx").
  reflexivity.
Defined.

(** Where [rfind] points: nowhere when the character does not occur,
    else at an occurrence after which there is no other. *)
Lemma rfind_from_spec (c : ascii) (l : list ascii) : forall i last,
  (rfind_from c l i last = last /\ c ∉ l)
  \/ exists j, rfind_from c l i last = i + Z.of_nat j
               /\ l !! j = Some c /\ c ∉ drop (S j) l.
Proof.
  induction l as [|x l IH]; intros i last; cbn [rfind_from].
  - left. split; [reflexivity | apply not_elem_of_nil].
  - destruct (IH (i + 1) (if Ascii.eqb x c then i else last))
      as [[Hres Hnot] | (j & Hres & Hj & Hafter)].
    + destruct (Ascii.eqb_spec x c) as [->|Hne].
      * right. exists 0%nat. rewrite Hres. split; [lia|]. split; [reflexivity|].
        exact Hnot.
      * left. split; [exact Hres|]. intros Hin. apply elem_of_cons in Hin as [->|Hin];
          [congruence | contradiction].
    + right. exists (S j). rewrite Hres. split; [lia|]. split; [exact Hj | exact Hafter].
Qed.

Lemma rfind_spec (c : ascii) (l : list ascii) :
  (rfind c l = -1 /\ c ∉ l)
  \/ exists j, rfind c l = Z.of_nat j /\ l !! j = Some c /\ c ∉ drop (S j) l.
Proof.
  unfold rfind. destruct (rfind_from_spec c l 0 (-1)) as [H | (j & Hres & H)]; [now left|].
  right. exists j. rewrite Hres. split; [lia | exact H].
Qed.

(** X17. A file name with no dot after its last slash has no extension
    and gets the generic type [application/octet-stream]; dots in
    directory names do not count. *)
Theorem no_extension_is_octet_stream (file_name : string) :
  dot ∉ list_ascii_of_string (basename file_name) ->
  _get_mime_type file_name = "application/octet-stream"%string.
Proof.
  intros Hnodot. unfold _get_mime_type.
  assert (Hext : splitext_ext file_name = EmptyString); [|now rewrite Hext].
  unfold splitext_ext, basename in *.
  rewrite list_ascii_of_string_of_list_ascii in Hnodot.
  set (l := list_ascii_of_string file_name) in *.
  destruct (Z.ltb_spec (rfind slash l) (rfind dot l)) as [Hlt|]; [|reflexivity].
  exfalso. apply Hnodot.
  destruct (rfind_spec dot l) as [[Hd Hnot] | (j & Hd & Hj & _)].
  - destruct (rfind_spec slash l) as [[Hs _] | (k & Hs & _)]; lia.
  - apply list_elem_of_lookup.
    exists (j - Z.to_nat (rfind slash l + 1))%nat.
    rewrite lookup_drop. rewrite <- Hj. f_equal.
    destruct (rfind_spec slash l) as [[Hs _] | (k & Hs & _)]; lia.
Qed.

Lemma no_extension_is_octet_stream_witness :
  _get_mime_type "/srv/data.v2/README" = "application/octet-stream"%string.
Proof.
  apply (no_extension_is_octet_stream "/srv/data.v2/README").
  vm_compute. intros Hin.
  repeat (apply elem_of_cons in Hin as [Hin|Hin]; [discriminate Hin|]).
  now apply not_elem_of_nil in Hin.
Defined.

Lemma transport_events_not_saves (self : BaseScraper) (e : env) (url : string)
    (res : outcome (option response)) (evs : list event) :
  _make_request self e url true = (res, evs) ->
  Forall (fun ev => is_save ev = false) evs.
Proof.
  intros Hreq. pose proof (transport_never_saves self e url true) as H.
  now rewrite Hreq in H.
Qed.

(** The actions of one [download_file] call: at most one [storage.save],
    and then as the last action, with the path built from the resolved
    file name. *)
Lemma download_file_trace (self : BaseScraper) (e : env) (url : string)
    (file_name : option string) (overwrite : bool) (w : world) :
  exists new,
    trace (snd (download_file self e url file_name overwrite w)) = trace w ++ new
    /\ (Forall (fun ev => is_save ev = false) new
        \/ exists pre r,
             new = pre ++ [save_event self (resolve_file_name e file_name) r]
             /\ Forall (fun ev => is_save ev = false) pre).
Proof.
  destruct (download_file_cases self e url file_name overwrite w)
    as (o & w1 & Hprobe & _ & _ & Hcase).
  destruct (probe_cases self e url _ _ _ _ _ Hprobe) as [Hw1 _].
  assert (Hhead : exists h, trace w1 = trace w ++ h
                            /\ Forall (fun ev => is_save ev = false) h).
  { destruct Hw1 as [-> | ->].
    - exists []. split; [now rewrite app_nil_r | constructor].
    - eexists. split; [reflexivity | repeat constructor]. }
  destruct Hhead as (h & Hh & Hnosave).
  destruct o as [res|].
  - destruct Hcase as [-> _]. exists h. split; [exact Hh | now left].
  - destruct Hcase as [-> Hbody].
    inversion Hbody as [ex evs Herr Hw | r evs pk existing Hex Hreq Hstream Hsame Hw
                       | r evs file_path Hreq Hstream Hchanged Hsave Hw];
      world_simpl; rewrite Hh, <- app_assoc.
    + exists (h ++ evs). split; [reflexivity|].
      destruct Herr as [ex evs Hreq | evs Hreq | r ex evs Hreq Hstream
                       | r ex evs Hreq Hstream Hchanged Hsave].
      1-3: left; apply Forall_app; split;
           [exact Hnosave | eapply transport_events_not_saves; eauto].
      right. exists (h ++ evs), r. split; [now rewrite app_assoc|].
      apply Forall_app. split; [exact Hnosave|].
      eapply transport_events_not_saves; eauto.
    + exists (h ++ evs). split; [reflexivity|]. left. apply Forall_app.
      split; [exact Hnosave | eapply transport_events_not_saves; eauto].
    + exists (h ++ evs ++ [save_event self (resolve_file_name e file_name) r]).
      split; [reflexivity|]. right. exists (h ++ evs), r.
      split; [now rewrite app_assoc|]. apply Forall_app.
      split; [exact Hnosave | eapply transport_events_not_saves; eauto].
Qed.

Lemma prefix_append (s t : string) : String.prefix s (s ++ t) = true.
Proof.
  induction s as [|c s IH].
  - now destruct t.
  - change (String.prefix (String c s) (String c (s ++ t)) = true).
    cbn [String.prefix]. destruct (ascii_dec c c); [exact IH | contradiction].
Qed.

Lemma append_assoc (s t u : string) : ((s ++ t) ++ u = s ++ (t ++ u))%string.
Proof.
  induction s as [|c s IH]; [reflexivity|].
  change (String c ((s ++ t) ++ u) = String c (s ++ (t ++ u))). now rewrite IH.
Qed.

Lemma join2_relative (path b : string) :
  String.prefix "/" b = false -> exists x, join2 path b = (path ++ x)%string.
Proof.
  intros Hrel. unfold join2. rewrite Hrel.
  destruct (String.eqb path "" || endswith_sep path); eauto.
Qed.

(** X18. Where the bytes go: a call performs at most one [storage.save],
    as its last action, at the path [os.path.join(SCRAPED_FILES_DIR,
    institution, file_name)] of the resolved file name. When that name is
    absolute the first two components are discarded and the bytes are
    saved at the name itself; when the name and the institution are
    relative the path lies under [SCRAPED_FILES_DIR]. *)
Theorem storage_path_follows_name (self : BaseScraper) (e : env) (url : string)
    (file_name : option string) (overwrite : bool) (w : world) :
  let name := resolve_file_name e file_name in
  exists new,
    trace (snd (download_file self e url file_name overwrite w)) = trace w ++ new
    /\ (length (filter (fun ev => is_save ev = true) new) <= 1)%nat
    /\ forall p content,
         EvSave p content ∈ new ->
         last new = Some (EvSave p content)
         /\ p = path_join (SCRAPED_FILES_DIR self) [institution self; name]
         /\ (String.prefix "/" name = true -> p = name)
         /\ (String.prefix "/" name = false ->
             String.prefix "/" (institution self) = false ->
             String.prefix (SCRAPED_FILES_DIR self) p = true).
Proof.
  intros name.
  assert (Hnone : forall l : list event,
             Forall (fun ev => is_save ev = false) l ->
             filter (fun ev => is_save ev = true) l = []).
  { intros l Hl. induction Hl as [|ev l Hev _ IH]; [reflexivity|].
    rewrite filter_cons, IH. case_decide; [congruence | reflexivity]. }
  assert (Hnotin : forall (l : list event) p content,
             Forall (fun ev => is_save ev = false) l -> EvSave p content ∉ l).
  { intros l p content Hl Hin. rewrite Forall_forall in Hl.
    specialize (Hl _ Hin). discriminate Hl. }
  destruct (download_file_trace self e url file_name overwrite w)
    as (new & Htrace & [Hnosave | (pre & r & -> & Hnosave)]).
  - exists new. split; [exact Htrace|]. rewrite (Hnone _ Hnosave). split; [cbn; lia|].
    intros p content Hin. exfalso. eapply Hnotin; eauto.
  - exists (pre ++ [save_event self name r]). split; [exact Htrace|].
    rewrite filter_app, (Hnone _ Hnosave), filter_cons, filter_nil.
    split; [case_decide; cbn [app length]; lia|].
    intros p content Hin. apply elem_of_app in Hin as [Hin | Hin];
      [exfalso; eapply Hnotin; eauto|].
    apply list_elem_of_singleton in Hin. unfold save_event in Hin. fold name in Hin.
    inversion Hin; subst p content.
    split; [unfold save_event; fold name; apply last_snoc|].
    split; [reflexivity|]. unfold path_join. cbn [fold_left]. split.
    + intros Habs. unfold join2 at 1. now rewrite Habs.
    + intros Hrel Hinst.
      destruct (join2_relative (SCRAPED_FILES_DIR self) (institution self) Hinst)
        as (x & ->).
      destruct (join2_relative (SCRAPED_FILES_DIR self ++ x) name Hrel) as (y & ->).
      rewrite append_assoc. apply prefix_append.
Qed.

Lemma storage_path_follows_name_witness :
  exists new,
    trace (snd (download_file nsi host_same_content sample_url
                  (Some "/tmp/elsewhere/report.xlsx"%string) false fresh_world))
    = trace fresh_world ++ new
    /\ last new = Some (EvSave "/tmp/elsewhere/report.xlsx" (bytes_of_string "abc")).
Proof.
  destruct (storage_path_follows_name nsi host_same_content sample_url
              (Some "/tmp/elsewhere/report.xlsx"%string) false fresh_world)
    as (new & Htrace & _ & Hsave).
  exists new. split; [exact Htrace|].
  apply (Hsave "/tmp/elsewhere/report.xlsx"%string (bytes_of_string "abc")).
  assert (Hnew : new = [EvGet sample_url 300 true; EvSleep 1;
                        EvSave "/tmp/elsewhere/report.xlsx" (bytes_of_string "abc")]).
  { apply (app_inv_head (trace fresh_world)). rewrite <- Htrace. vm_compute. reflexivity. }
  rewrite Hnew. apply list_elem_of_lookup. exists 2%nat. reflexivity.
Defined.

(* ===================================================================== *)
(** ** [NSIScraper.extract_links]                                         *)
(* ===================================================================== *)

Lemma last_app_nonempty {A} (k x : list A) : x <> [] -> last (k ++ x) = last x.
Proof.
  intros Hx. induction k as [|a k IH]; [reflexivity|].
  cbn [app]. destruct (k ++ x) eqn:E.
  - apply app_eq_nil in E as [_ ->]. contradiction.
  - rewrite <- IH. reflexivity.
Qed.

Lemma last_map_lower (l : list ascii) :
  last (map lower_ascii l) = option_map lower_ascii (last l).
Proof.
  induction l as [|a l IH]; [reflexivity|].
  cbn [map]. destruct l as [|b l]; [reflexivity|]. exact IH.
Qed.

(** A path that does not end in a slash has a non-empty base name. *)
Lemma basename_nonempty (p : string) (c : ascii) :
  last (list_ascii_of_string p) = Some c -> c <> slash -> basename p <> EmptyString.
Proof.
  intros Hlast Hc. unfold basename. set (l := list_ascii_of_string p) in *.
  assert (Hdrop : (Z.to_nat (rfind slash l + 1) < length l)%nat).
  { destruct (rfind_spec slash l) as [[-> _] | (j & -> & Hj & _)].
    - destruct l; [discriminate | cbn; lia].
    - pose proof (lookup_lt_Some _ _ _ Hj) as Hlt.
      destruct (decide (S j = length l)) as [Heq|]; [|lia].
      exfalso. apply Hc. rewrite last_lookup in Hlast.
      replace (pred (length l)) with j in Hlast by lia. congruence. }
  destruct (drop (Z.to_nat (rfind slash l + 1)) l) eqn:E; [|discriminate].
  apply (f_equal length) in E. rewrite length_drop in E. cbn in E. lia.
Qed.

Lemma endswith_last (s ext : string) (c : ascii) :
  endswith s ext = true ->
  last (list_ascii_of_string ext) = Some c ->
  last (list_ascii_of_string s) = Some c.
Proof.
  unfold endswith. intros Hends Hlast. apply bool_decide_eq_true in Hends as [k Hk].
  assert (Hne : list_ascii_of_string ext <> []) by (intros E; now rewrite E in Hlast).
  rewrite Hk, last_app_nonempty by exact Hne. exact Hlast.
Qed.

(** The ASCII lowering keeps the end of a path. *)
Lemma lower_keeps_end : lower_keeps_path_end lower.
Proof.
  split; [reflexivity|]. intros s Hlast. unfold lower.
  rewrite list_ascii_of_string_of_list_ascii, last_map_lower, Hlast. reflexivity.
Qed.

(** X19. [extract_links] returns the resolved URLs of some of the
    anchors, in document order, so no more links than there are anchors,
    and none for an empty extension list; the URL of every link it
    returns ends, once lowered by [str.lower], in one of the extensions.
    With the default extensions no returned link has an empty title: an
    anchor without text gets the base name of its URL, which cannot be
    empty since the URL ends in an extension. For the titles [str.lower]
    is only required to keep the empty string empty and a final slash
    final. *)
Theorem extracted_links_are_files (urljoin : string -> string -> string)
    (str_lower : string -> string) (base_url : string) (anchors : list anchor) :
  (forall exts,
      (length (extract_links urljoin str_lower base_url anchors exts) <= length anchors)%nat
      /\ sublist (map link_url (extract_links urljoin str_lower base_url anchors exts))
                 (map (fun a_tag => urljoin base_url (href a_tag)) anchors)
      /\ forall l, l ∈ extract_links urljoin str_lower base_url anchors exts ->
           exists ext,
             ext ∈ match exts with
                   | None => default_file_extensions
                   | Some given => given
                   end
             /\ endswith (str_lower (link_url l)) ext = true)
  /\ extract_links urljoin str_lower base_url anchors (Some []) = []
  /\ (lower_keeps_path_end str_lower ->
      forall l, l ∈ extract_links urljoin str_lower base_url anchors None ->
        link_title l <> EmptyString).
Proof.
  split; [|split].
  - intros exts. unfold extract_links. split; [|split].
    + induction anchors as [|a rest IH]; cbn [flat_map length]; [reflexivity|].
      destruct (existsb _ _); cbn [app length]; lia.
    + induction anchors as [|a rest IH]; cbn [flat_map map]; [constructor|].
      destruct (existsb _ _); cbn [app map link_url]; now constructor.
    + intros l Hin. apply list_elem_of_In, in_flat_map in Hin as (a & _ & Hin).
      cbn zeta in Hin. destruct (existsb _ _) eqn:E; [|contradiction].
      destruct Hin as [<- | []]. cbn [link_url].
      apply existsb_exists in E as (ext & Hext & Hends).
      exists ext. split; [now apply list_elem_of_In | exact Hends].
  - unfold extract_links. induction anchors as [|a rest IH]; [reflexivity|].
    cbn [flat_map existsb app]. exact IH.
  - intros [Hempty Hslash] l Hin. unfold extract_links in Hin.
    apply list_elem_of_In, in_flat_map in Hin as (a & _ & Hin).
    cbn zeta in Hin. destruct (existsb _ _) eqn:E; [|contradiction].
    destruct Hin as [<- | []]. cbn [link_title].
    destruct (String.eqb_spec (get_text a) ""); [|assumption].
    apply existsb_exists in E as (ext & Hext & Hends).
    assert (Hlast : exists c, last (list_ascii_of_string ext) = Some c /\ c <> slash).
    { unfold default_file_extensions in Hext. cbn [In] in Hext.
      repeat (destruct Hext as [<- | Hext];
              [eexists; split; [reflexivity | discriminate]|]).
      contradiction. }
    destruct Hlast as (c & Hc & Hne).
    pose proof (endswith_last _ _ _ Hends Hc) as Hlow.
    set (url := urljoin base_url (href a)) in *.
    destruct (last (list_ascii_of_string url)) as [c0|] eqn:Hurl.
    + apply (basename_nonempty url c0 Hurl). intros ->.
      rewrite (Hslash url Hurl) in Hlow. congruence.
    + exfalso. apply last_None in Hurl.
      assert (Hnil : url = EmptyString).
      { rewrite <- (string_of_list_ascii_of_string url), Hurl. reflexivity. }
      rewrite Hnil, Hempty in Hlow. discriminate Hlow.
Qed.

Lemma extracted_links_are_files_witness :
  lower_keeps_path_end lower
  /\ extract_links sample_urljoin lower "https://www.nsi.bg/" sample_anchors None
     = [ {| link_url := "https://www.nsi.bg/files/Population.XLSX";
            link_title := "Population"; link_extension := ".xlsx" |};
         {| link_url := "https://www.nsi.bg/files/prices.csv";
            link_title := "prices.csv"; link_extension := ".csv" |} ]
  /\ forall l,
       l ∈ extract_links sample_urljoin lower "https://www.nsi.bg/" sample_anchors None ->
       link_title l <> EmptyString.
Proof.
  split; [exact lower_keeps_end|]. split; [vm_compute; reflexivity|].
  exact (proj2 (proj2 (extracted_links_are_files sample_urljoin lower
                         "https://www.nsi.bg/" sample_anchors)) lower_keeps_end).
Defined.

(* ===================================================================== *)
(** ** [NSIScraper.extract_categories]                                    *)
(* ===================================================================== *)

Lemma extract_categories_from_spec (urljoin : string -> string -> string)
    (base_url : string) (containers : list container) : forall categories,
  (Forall (fun c => heading c <> None) containers ->
   extract_categories_from urljoin base_url containers categories
   = Return (categories
             ++ flat_map (fun c => match heading c with
                                   | Some title => category_of urljoin base_url title c
                                   | None => []
                                   end) containers))
  /\ (Exists (fun c => heading c = None) containers ->
      extract_categories_from urljoin base_url containers categories
      = Raise (attribute_error "get_text")).
Proof.
  induction containers as [|c rest IH]; intros categories;
    cbn [extract_categories_from flat_map].
  - split; [intros _; now rewrite app_nil_r | intros H; inversion H].
  - destruct (heading c) as [title|] eqn:Hc.
    + destruct (IH (categories ++ category_of urljoin base_url title c)) as [IHok IHbad].
      split.
      * intros Hall. inversion Hall; subst. rewrite IHok by assumption.
        now rewrite <- app_assoc.
      * intros Hex. inversion Hex; subst; [congruence|]. now apply IHbad.
    + split; [|reflexivity]. intros Hall. inversion Hall; subst. contradiction.
Qed.

(** X20. [extract_categories] is all or nothing: one container without
    an [h3] or [h2] heading, wherever it stands and whether or not it has
    a link, makes the call raise an attribute error and lose the
    categories already collected; when every container has a heading it
    returns, in page order, one category for each container whose first
    anchor carries an [href], and none for the others. *)
Theorem categories_are_all_or_nothing (urljoin : string -> string -> string)
    (base_url : string) (containers : list container) :
  (Exists (fun c => heading c = None) containers <->
   extract_categories urljoin base_url containers = Raise (attribute_error "get_text"))
  /\ (Forall (fun c => heading c <> None) containers ->
      exists categories,
        extract_categories urljoin base_url containers = Return categories
        /\ (length categories <= length containers)%nat
        /\ categories
           = flat_map (fun c => match heading c, first_anchor c with
                                | Some title, Some (Some h) =>
                                    [ {| category_title := title;
                                         category_url := urljoin base_url h |} ]
                                | _, _ => []
                                end) containers).
Proof.
  unfold extract_categories.
  destruct (extract_categories_from_spec urljoin base_url containers []) as [Hok Hbad].
  split; [split|].
  - exact Hbad.
  - intros Hraise.
    destruct (decide (Forall (fun c => heading c <> None) containers)) as [Hall|Hnot].
    + rewrite (Hok Hall) in Hraise. discriminate Hraise.
    + apply not_Forall_Exists in Hnot; [|intros c; apply _].
      eapply Exists_impl; [exact Hnot|]. intros c Hc.
      destruct (heading c) eqn:E; [exfalso; apply Hc; congruence | reflexivity].
  - intros Hall. eexists. split; [apply (Hok Hall)|]. cbn [app]. split.
    + clear. induction containers as [|c rest IH]; [reflexivity|].
      cbn [flat_map]. rewrite length_app. cbn [length].
      assert (length (match heading c with
                      | Some title => category_of urljoin base_url title c
                      | None => []
                      end) <= 1)%nat; [|lia].
      unfold category_of. destruct (heading c); [|cbn; lia].
      destruct (first_anchor c) as [[h|]|]; cbn; lia.
    + clear. induction containers as [|c rest IH]; [reflexivity|].
      cbn [flat_map]. rewrite IH. reflexivity.
Qed.

Lemma categories_are_all_or_nothing_witness :
  Exists (fun c => heading c = None) sample_containers
  /\ extract_categories sample_urljoin "https://www.nsi.bg/" sample_containers
     = Raise (attribute_error "get_text").
Proof.
  assert (H : Exists (fun c => heading c = None) sample_containers).
  { apply Exists_cons_tl, Exists_cons_hd. reflexivity. }
  split; [exact H|].
  exact (proj1 (proj1 (categories_are_all_or_nothing sample_urljoin "https://www.nsi.bg/"
                         sample_containers)) H).
Defined.

(* ===================================================================== *)
(** ** Stored files against their rows                                    *)
(* ===================================================================== *)

(** X21. A stored file verifies against its row: whenever a
    [download_file] call changes the table, its last action was the
    [storage.save] of some bytes, the row a lookup of (institution, url)
    now finds has as [hash_value] what [calculate_file_hash] computes
    from those bytes read back in 4096-byte blocks, as [file_size] their
    number, and as [file_path] the path the call returned. *)
Theorem committed_row_verifies (self : BaseScraper) (e : env) (url : string)
    (file_name : option string) (overwrite : bool) (w : world) :
  let res := fst (download_file self e url file_name overwrite w) in
  let w' := snd (download_file self e url file_name overwrite w) in
  db w' <> db w ->
  exists pre path content pk row,
    trace w' = pre ++ [EvSave path content]
    /\ objects_filter_first (institution self) url (db w') = Some (pk, row)
    /\ calculate_file_hash content = Some (ScrapedFile.hash_value row)
    /\ ScrapedFile.file_size row = Z.of_nat (length content)
    /\ res = Return (Some (ScrapedFile.file_path row)).
Proof.
  intros res w' Hchanged. subst res w'.
  destruct (download_file_db self e url file_name overwrite w)
    as [[Hsame _] | (r & file_path & pre & _ & Hres & Htrace & Hdb)];
    [contradiction|].
  destruct (committed_lookup self e url file_name r file_path (db w))
    as (pk & row & Hlookup & Hpath & Hhash & Hsize & _).
  exists pre, (path_join (SCRAPED_FILES_DIR self)
                 [institution self; resolve_file_name e file_name]), (body r), pk, row.
  split; [exact Htrace|]. rewrite Hdb. split; [exact Hlookup|].
  rewrite Hhash, Hsize, Hres, Hpath. repeat split.
  unfold calculate_file_hash, _calculate_hash, Sha256.sha256.
  rewrite new_is_update at 1. rewrite read_blocks_spec by lia. reflexivity.
Qed.

Lemma committed_row_verifies_witness :
  exists pre path content pk row,
    trace (snd (download_file nsi host_flaky sample_url None false fresh_world))
    = pre ++ [EvSave path content]
    /\ objects_filter_first (institution nsi) sample_url
         (db (snd (download_file nsi host_flaky sample_url None false fresh_world)))
       = Some (pk, row)
    /\ calculate_file_hash content = Some (ScrapedFile.hash_value row)
    /\ ScrapedFile.file_size row = Z.of_nat (length content)
    /\ fst (download_file nsi host_flaky sample_url None false fresh_world)
       = Return (Some (ScrapedFile.file_path row)).
Proof.
  apply (committed_row_verifies nsi host_flaky sample_url None false fresh_world).
  vm_compute. discriminate.
Defined.
